(** * scripts/convert_m4a_to_mp3.py: the conversion-and-reporting pipeline

    A shallow embedding of the batch converter and the properties its
    specification states about it.

    - Text is [string]: a character is a code point below 256, compared by
      its number, as Python compares [str].
    - A path is the list of its parts, as [pathlib.PurePosixPath] keeps it;
      paths are ordered part by part, as [sorted] orders them.  [suffix]
      follows the rule of Python 3.9 to 3.13 (the last dot of the name,
      unless it is the first or the last character).
    - The file system is a tree of directories and files, seen from the
      directory the process runs in; an absolute path starts with the part
      ["/"].  Symbolic links, [..] components, permissions and I/O faults
      are outside the model.
    - A file holds bytes that are UTF-8 text or are not.  Text is kept as
      what its readers make of it: what [json.loads] returns for it, the
      rows [csv.DictWriter] wrote, or text that is neither.  A table is one
      written under the header row of [write_csv_report], which
      [json.loads] rejects at its first character; a table under another
      header, and text on which [json.loads] raises something other than
      [JSONDecodeError] (an integer beyond the digit limit, nesting beyond
      the recursion limit), are outside the model.
    - The command line is read by [argparse]: what [parse_args] makes of
      it is an input of a run.  [main] is the function from the parsed
      values on; [script] is the process from its first line, [parse_args]
      included.
    - The child process, [shutil.which], the environment variables and the
      clock are inputs of a run ([Env]); the file system, the console and
      the list of commands run are its state ([State]).  A computation takes
      a state and gives a result or an exception, and the state it left. *)

From Stdlib Require Import ZArith Ascii.
From stdpp Require Import base option list sorting strings pretty gmap.

#[local] Open Scope Z_scope.
#[local] Set Warnings "-register-all".

(** ** Python [str] operations used by the script *)

Module Str.

Definition chars (s : string) : list ascii := String.list_ascii_of_string s.
Definition of_chars (l : list ascii) : string := String.string_of_list_ascii l.

Definition len (s : string) : Z := Z.of_nat (length (chars s)).

(** [s.endswith(suf)] *)
Definition endswith (s suf : string) : bool :=
  bool_decide (chars suf `suffix_of` chars s).

(** [s.startswith(pre)] *)
Definition startswith (s pre : string) : bool :=
  bool_decide (chars pre `prefix_of` chars s).

(** Index of the last occurrence of [c] in [l], counted from [i]. *)
Fixpoint rfind_from (c : ascii) (i : Z) (l : list ascii) : option Z :=
  match l with
  | [] => None
  | a :: l' =>
      match rfind_from c (i + 1) l' with
      | Some j => Some j
      | None => if decide (a = c) then Some i else None
      end
  end.

(** [s.rfind(c)]: the highest index of [c], or [-1]. *)
Definition rfind (s : string) (c : ascii) : Z :=
  default (-1) (rfind_from c 0 (chars s)).

(** [s[i:]] and [s[:i]] for [0 <= i]. *)
Definition slice_from (s : string) (i : Z) : string :=
  of_chars (drop (Z.to_nat i) (chars s)).
Definition slice_to (s : string) (i : Z) : string :=
  of_chars (take (Z.to_nat i) (chars s)).

(** [str.isspace] on one character: the white space below 256. *)
Definition isspace (a : ascii) : bool :=
  let n := N_of_ascii a in
  ((9 <=? n) && (n <=? 13) || (28 <=? n) && (n <=? 32)
   || (n =? 133) || (n =? 160))%N.

Fixpoint lstrip_chars (l : list ascii) : list ascii :=
  match l with
  | a :: l' => if isspace a then lstrip_chars l' else l
  | [] => []
  end.

(** [s.strip()] *)
Definition strip (s : string) : string :=
  of_chars (reverse (lstrip_chars (reverse (lstrip_chars (chars s))))).

(** [sep.join(parts)] *)
Fixpoint join (sep : string) (parts : list string) : string :=
  match parts with
  | [] => ""
  | [p] => p
  | p :: rest => p +:+ sep +:+ join sep rest
  end.

(** [s.split(c)] for a one-character separator. *)
Fixpoint split_chars (c : ascii) (cur : list ascii) (l : list ascii)
  : list string :=
  match l with
  | [] => [of_chars (reverse cur)]
  | a :: l' =>
      if decide (a = c) then of_chars (reverse cur) :: split_chars c [] l'
      else split_chars c (a :: cur) l'
  end.
Definition split (s : string) (c : ascii) : list string :=
  split_chars c [] (chars s).

(** Truthiness of a [str]: the empty string is false. *)
Definition truthy (s : string) : bool := negb (bool_decide (s = "")).

(** [f"{n}"] for an [int]. *)
Definition of_int (n : Z) : string := pretty n.

End Str.

(** ** Exceptions and results *)

Inductive exn_class :=
  | JSONDecodeError | UnicodeDecodeError | AttributeError | ValueError
  | FileNotFoundError | FileExistsError | IsADirectoryError
  | NotADirectoryError | PermissionError | OSError | CalledProcessError.

#[global] Instance exn_class_eq_dec : EqDecision exn_class.
Proof. solve_decision. Defined.

(** A raised exception: its class and [str(exc)]. *)
Record exn := Exn { exn_cls : exn_class; exn_msg : string }.

Inductive res (A : Type) :=
  | Ok (a : A)
  | Raise (e : exn).
Arguments Ok {A} a.
Arguments Raise {A} e.

Definition res_bind {A B} (r : res A) (k : A → res B) : res B :=
  match r with
  | Ok a => k a
  | Raise e => Raise e
  end.

Definition is_ok {A} (r : res A) : bool :=
  match r with Ok _ => true | Raise _ => false end.

(** ** [pathlib] paths *)

(** A path is the list of its parts; an absolute path starts with the
    anchor ["/"].  [Path(".")] is the empty list. *)
Abbreviation path := (list string).

Module Path.

Definition is_anchor (part : string) : bool :=
  bool_decide (part = "/") || bool_decide (part = "//").

(** [Path(s)]: split at the separator, drop empty and ["."] parts, keep
    the anchor (two leading slashes, and only two, are kept as they are). *)
Definition anchor_of (s : string) : list string :=
  if Str.startswith s "///" then ["/"]
  else if Str.startswith s "//" then ["//"]
  else if Str.startswith s "/" then ["/"]
  else [].

Definition parse (s : string) : path :=
  anchor_of s ++
  filter (λ part, part ≠ "" ∧ part ≠ ".") (Str.split s "/").

(** [str(p)] *)
Definition str (p : path) : string :=
  match p with
  | [] => "."
  | a :: rest => if is_anchor a then a +:+ Str.join "/" rest
                 else Str.join "/" p
  end.

(** [p.name]: the last part, empty for [Path(".")] and for the anchor. *)
Definition name (p : path) : string :=
  match p with
  | [a] => if is_anchor a then "" else a
  | _ => default "" (last p)
  end.

(** [p.parent] *)
Definition parent (p : path) : path :=
  match p with
  | [a] => if is_anchor a then p else []
  | _ => removelast p
  end.

(** [p.suffix]: from the last dot of the name, unless that dot is the
    first or the last character. *)
Definition suffix (p : path) : string :=
  let name := name p in
  let i := Str.rfind name "." in
  if (0 <? i) && (i <? Str.len name - 1) then Str.slice_from name i
  else "".

(** [p.with_suffix(suffix)] *)
Definition with_suffix (p : path) (suffix' : string) : res path :=
  if bool_decide ("/"%char ∈ Str.chars suffix') then
    Raise (Exn ValueError "Invalid suffix")
  else if Str.truthy suffix' && negb (Str.startswith suffix' ".")
          || bool_decide (suffix' = ".") then
    Raise (Exn ValueError "Invalid suffix")
  else
    let name := name p in
    if negb (Str.truthy name) then
      Raise (Exn ValueError "path has an empty name")
    else
      let old_suffix := suffix p in
      let name' :=
        if negb (Str.truthy old_suffix) then name +:+ suffix'
        else Str.slice_to name (Str.len name - Str.len old_suffix)
             +:+ suffix' in
      Ok (removelast p ++ [name']).

(** [fnmatch] of a name against the pattern ["*" + ext], as the POSIX
    flavour of [pathlib] does it: case matters. *)
Definition matches_ext (ext : string) (name : string) : bool :=
  Str.endswith name ext.

(** Python compares two lists at the first position where they differ,
    and a proper prefix is the smaller one. *)
Fixpoint leb (p q : path) : bool :=
  match p, q with
  | [], _ => true
  | _ :: _, [] => false
  | a :: p', b :: q' =>
      if bool_decide (a = b) then leb p' q' else String.leb a b
  end.

(** [p <= q] on paths. *)
Definition le (p q : path) : Prop := leb p q = true.

#[global] Instance le_dec : RelDecision le.
Proof. intros p q. unfold le. apply _. Defined.

End Path.

(** ** JSON values and file contents *)

(** What [json.loads] returns: [None], [bool], [int], [float] (kept as its
    [repr]), [str], [list], and [dict] as its items in insertion order. *)
Inductive json :=
  | JNull
  | JBool (b : bool)
  | JInt (n : Z)
  | JFloat (repr : string)
  | JStr (s : string)
  | JArr (items : list json)
  | JObj (fields : list (string * json)).

(** [d.get(k)] on the items of a dict. *)
Fixpoint dict_get (k : string) (fields : list (string * json)) : option json :=
  match fields with
  | [] => None
  | (k', v) :: rest => if decide (k' = k) then Some v else dict_get k rest
  end.

(** [d[k] = v]: in place when the key is there, at the end otherwise. *)
Fixpoint dict_set (k : string) (v : json) (fields : list (string * json))
  : list (string * json) :=
  match fields with
  | [] => [(k, v)]
  | (k', v') :: rest =>
      if decide (k' = k) then (k, v) :: rest
      else (k', v') :: dict_set k v rest
  end.

(** The text of a file, as far as its readers can tell it apart: a text
    that [json.loads] reads as [v] (what [json.dumps(v, indent=2)] writes is
    one), a table written by [csv.DictWriter], or any other text, which
    [json.loads] rejects. *)
Inductive text :=
  | JsonText (v : json)
  | CsvText (rows : list (list string))
  | OtherText.

(** The bytes of a file: UTF-8 text, or bytes that do not decode. *)
Inductive content :=
  | Utf8 (t : text)
  | Binary.

(** [json.loads] *)
Definition json_loads (t : text) : res json :=
  match t with
  | JsonText v => Ok v
  | CsvText _ | OtherText => Raise (Exn JSONDecodeError "Expecting value")
  end.

(** [json.dumps(v, indent=2)] *)
Definition json_dumps (v : json) : text := JsonText v.

(** ** The file system *)

Inductive node :=
  | File (c : content)
  | Dir (entries : gmap string node).

Module Fs.

(** The node a path leads to, from the directory the process runs in. *)
Fixpoint stat (n : node) (p : path) : option node :=
  match p with
  | [] => Some n
  | part :: p' =>
      match n with
      | Dir entries => entries !! part ≫= λ child, stat child p'
      | File _ => None
      end
  end.

Definition exists_ (n : node) (p : path) : bool :=
  bool_decide (is_Some (stat n p)).

Definition is_dir (n : node) (p : path) : bool :=
  match stat n p with
  | Some (Dir _) => true
  | _ => false
  end.

(** [p.read_text(encoding="utf-8")] *)
Definition read_text (n : node) (p : path) : res text :=
  match stat n p with
  | None => Raise (Exn FileNotFoundError (Path.str p))
  | Some (Dir _) => Raise (Exn IsADirectoryError (Path.str p))
  | Some (File Binary) => Raise (Exn UnicodeDecodeError "invalid start byte")
  | Some (File (Utf8 t)) => Ok t
  end.

(** Opening [p] for writing and storing [c]: the file is created or
    replaced; its directory must be there. *)
Fixpoint write (n : node) (p : path) (c : content) : res node :=
  match p with
  | [] =>
      match n with
      | Dir _ => Raise (Exn IsADirectoryError "Is a directory")
      | File _ => Ok (File c)
      end
  | part :: p' =>
      match n with
      | File _ => Raise (Exn NotADirectoryError "Not a directory")
      | Dir entries =>
          match entries !! part with
          | Some child =>
              res_bind (write child p' c) (λ child',
                Ok (Dir (<[part := child']> entries)))
          | None =>
              match p' with
              | [] => Ok (Dir (<[part := File c]> entries))
              | _ => Raise (Exn FileNotFoundError "No such file or directory")
              end
          end
      end
  end.

(** [p.mkdir(parents=True, exist_ok=True)]: every missing directory on
    the way is made; a file on the way, or at [p], is an error. *)
Fixpoint mkdir_parents (n : node) (p : path) : res node :=
  match p with
  | [] =>
      match n with
      | Dir _ => Ok n
      | File _ => Raise (Exn FileExistsError "File exists")
      end
  | part :: p' =>
      match n with
      | File _ => Raise (Exn NotADirectoryError "Not a directory")
      | Dir entries =>
          res_bind (mkdir_parents (default (Dir ∅) (entries !! part)) p')
            (λ child', Ok (Dir (<[part := child']> entries)))
      end
  end.

(** Every entry below [n], as the path from [pre]; a directory is
    listed before what it holds. *)
Fixpoint walk (pre : path) (n : node) : list path :=
  match n with
  | File _ => []
  | Dir entries =>
      map_fold (λ part child acc,
                  (pre ++ [part]) :: walk (pre ++ [part]) child ++ acc)
               [] entries
  end.

(** [root.rglob("*" + ext)]: the entries below [root], at any depth,
    whose name matches. *)
Definition rglob (n : node) (root : path) (ext : string) : list path :=
  match stat n root with
  | Some d => filter (λ p, Path.matches_ext ext (Path.name p) = true)
                     (walk root d)
  | None => []
  end.

End Fs.

(** ** The world of a run *)

(** [subprocess.CompletedProcess] *)
Record CompletedProcess := {
  returncode : Z;
  stdout : string;
  stderr : option string;
}.

(** What the script reads from outside and cannot change: the environment
    variables, [shutil.which], the clock, and the external tool, which
    either cannot be started or exits, and leaves the file system as it
    likes. *)
Record Env := {
  environ : gmap string string;
  which : string → node → option string;
  spawn : list string → node → res CompletedProcess * node;
  utcnow : string;
}.

(** What a run changes: the file system, the lines printed, and the
    command lines handed to [subprocess.run]. *)
Record State := {
  fs : node;
  console : list string;
  invoked : list (list string);
}.

Definition set_fs (n : node) (st : State) : State :=
  {| fs := n; console := console st; invoked := invoked st |}.

(** Computations that read and change the state and may raise. *)
Definition M (A : Type) : Type := State → res A * State.

#[global] Instance M_ret : MRet M := λ A a st, (Ok a, st).
#[global] Instance M_bind : MBind M := λ A B k m st,
  match m st with
  | (Ok a, st') => k a st'
  | (Raise e, st') => (Raise e, st')
  end.

Definition raise {A} (e : exn) : M A := λ st, (Raise e, st).

Definition lift {A} (r : res A) : M A := λ st, (r, st).

(** [try: body except <classes>: handler] *)
Definition try_except {A} (body : M A) (handles : exn_class → bool)
    (handler : exn → M A) : M A := λ st,
  match body st with
  | (Ok a, st') => (Ok a, st')
  | (Raise e, st') =>
      if handles (exn_cls e) then handler e st' else (Raise e, st')
  end.

(** [print(line)] *)
Definition print (line : string) : M unit := λ st,
  (Ok (), {| fs := fs st; console := console st ++ [line];
             invoked := invoked st |}).

(** Reading something off the file system. *)
Definition look {A} (f : node → A) : M A := λ st, (Ok (f (fs st)), st).

Definition path_exists (p : path) : M bool := look (λ n, Fs.exists_ n p).

Definition path_is_dir (p : path) : M bool := look (λ n, Fs.is_dir n p).

Definition read_text (p : path) : M text := λ st,
  (Fs.read_text (fs st) p, st).

Definition write_file (p : path) (c : content) : M unit := λ st,
  match Fs.write (fs st) p c with
  | Ok n => (Ok (), set_fs n st)
  | Raise e => (Raise e, st)
  end.

Definition mkdir_parents (p : path) : M unit := λ st,
  match Fs.mkdir_parents (fs st) p with
  | Ok n => (Ok (), set_fs n st)
  | Raise e => (Raise e, st)
  end.

(** [subprocess.run(cmd, capture_output=True, text=True, check=check)]:
    the output of the child is captured, so nothing reaches the console;
    with [check] a non-zero exit raises. *)
Definition subprocess_run (e : Env) (cmd : list string) (check : bool)
  : M CompletedProcess := λ st,
  let '(r, n) := spawn e cmd (fs st) in
  let st' := {| fs := n; console := console st;
                invoked := invoked st ++ [cmd] |} in
  match r with
  | Raise exc => (Raise exc, st')
  | Ok completed =>
      if check && negb (returncode completed =? 0)
      then (Raise (Exn CalledProcessError "non-zero exit status"), st')
      else (Ok completed, st')
  end.

(** ** The script *)

Record ConversionResult := {
  source : string;
  target : string;
  status : string;
  error : string;
}.

(** The [ConversionResult(...)] calls, [error] defaulting to [""]. *)
Definition result (src dst : path) (status error : string)
  : ConversionResult :=
  {| source := Path.str src; target := Path.str dst;
     status := status; error := error |}.

(** Truthiness of an [Optional[str]]: [None] and [""] are false. *)
Definition truthy_opt (o : option string) : bool :=
  match o with
  | Some s => Str.truthy s
  | None => false
  end.

(** The [for candidate in (...)] loop of [find_ffmpeg]. *)
Fixpoint first_existing (n : node) (candidates : list string)
  : option string :=
  match candidates with
  | [] => None
  | candidate :: rest =>
      if Fs.exists_ n (Path.parse candidate) then Some candidate
      else first_existing n rest
  end.

Definition find_ffmpeg (e : Env) (n : node) : option string :=
  let env_ffmpeg := environ e !! "FFMPEG_BINARY" in
  if truthy_opt env_ffmpeg
     && Fs.exists_ n (Path.parse (default "" env_ffmpeg))
  then env_ffmpeg
  else
    let system_ffmpeg := which e "ffmpeg" n in
    if truthy_opt system_ffmpeg then system_ffmpeg
    else
      first_existing n ["/opt/homebrew/bin/ffmpeg"; "/usr/local/bin/ffmpeg"].

Definition convert_file (e : Env) (src dst : path) (ffmpeg_bin : string)
  : M ConversionResult :=
  dst_exists ← path_exists dst;
  if dst_exists : bool then
    mret (result src dst "skipped" "target_exists")
  else
    let cmd := [ffmpeg_bin; "-y"; "-i"; Path.str src; "-vn"; "-codec:a";
                "libmp3lame"; "-q:a"; "2"; Path.str dst] in
    outcome ← try_except
      (completed ← subprocess_run e cmd false; mret (inl completed))
      (λ _, true)
      (λ exc, mret (inr (result src dst "failed" (exn_msg exc))));
    match outcome with
    | inr returned => mret returned
    | inl completed =>
        if returncode completed =? 0 then
          mret (result src dst "converted" "")
        else
          let stripped := Str.strip (default "" (stderr completed)) in
          let err :=
            if Str.truthy stripped then stripped
            else "ffmpeg exited with code "
                 +:+ Str.of_int (returncode completed) in
          mret (result src dst "failed" err)
    end.

Definition ensure_ffmpeg (e : Env) : M (option string) :=
  ffmpeg_path ← look (find_ffmpeg e);
  if truthy_opt ffmpeg_path then mret None
  else
    mret (Some ("ffmpeg not found. Install with Homebrew (`brew install ffmpeg`) or set "
                +:+ "FFMPEG_BINARY to the full ffmpeg path.")).

(** [existing.setdefault(key, []).append(item)]: a value without
    [setdefault], or a stored value without [append], raises; the list the
    dict holds is the one extended. *)
Definition setdefault_append (existing : json) (key : string) (item : json)
  : res json :=
  match existing with
  | JObj fields =>
      let '(fields', runs) :=
        match dict_get key fields with
        | Some v => (fields, v)
        | None => (fields ++ [(key, JArr [])], JArr [])
        end in
      match runs with
      | JArr items => Ok (JObj (dict_set key (JArr (items ++ [item])) fields'))
      | _ => Raise (Exn AttributeError "object has no attribute 'append'")
      end
  | _ => Raise (Exn AttributeError "object has no attribute 'setdefault'")
  end.

Definition write_json_report (report_path : path) (run_payload : json)
  : M unit :=
  mkdir_parents (Path.parent report_path);;
  report_exists ← path_exists report_path;
  existing ←
    (if report_exists : bool then
       try_except
         (t ← read_text report_path; lift (json_loads t))
         (λ cls, bool_decide (cls = JSONDecodeError))
         (λ _, mret (JObj [("runs", JArr [])]))
     else mret (JObj [("runs", JArr [])]));
  existing' ← lift (setdefault_append existing "runs" run_payload);
  write_file report_path (Utf8 (json_dumps existing')).

Definition csv_row (r : ConversionResult) : list string :=
  [source r; target r; status r; error r].

Definition write_csv_report (csv_path : path)
    (results : list ConversionResult) : M unit :=
  mkdir_parents (Path.parent csv_path);;
  write_file csv_path
    (Utf8 (CsvText (["source"; "target"; "status"; "error"]
                    :: map csv_row results))).

(** The parsed command line. *)
Record Args := {
  input_dir : string;
  report_json : string;
  report_csv : string;
}.

Definition default_args : Args :=
  {| input_dir := "data/train";
     report_json := "data/train/conversion_report.json";
     report_csv := "data/train/last_conversion_report.csv" |}.

(** [sorted(input_dir.rglob("*.m4a"))] *)
Definition discover (n : node) (input_dir : path) : list path :=
  merge_sort Path.le (Fs.rglob n input_dir ".m4a").

(** The [for src in sources] loop. *)
Fixpoint convert_all (e : Env) (ffmpeg_bin : string) (sources : list path)
  : M (list ConversionResult) :=
  match sources with
  | [] => mret []
  | src :: rest =>
      dst ← lift (Path.with_suffix src ".mp3");
      result ← convert_file e src dst ffmpeg_bin;
      results ← convert_all e ffmpeg_bin rest;
      mret (result :: results)
  end.

(** [sum(1 for r in results if r.status == s)] *)
Definition count_status (s : string) (results : list ConversionResult) : Z :=
  Z.of_nat (length (filter (λ r, status r = s) results)).

Definition result_json (r : ConversionResult) : json :=
  JObj [("source", JStr (source r)); ("target", JStr (target r));
        ("status", JStr (status r)); ("error", JStr (error r))].

Definition totals_json (results : list ConversionResult) : json :=
  JObj [("found_m4a", JInt (Z.of_nat (length results)));
        ("converted", JInt (count_status "converted" results));
        ("skipped", JInt (count_status "skipped" results));
        ("failed", JInt (count_status "failed" results))].

Definition run_payload (timestamp_utc : string) (input_dir : path)
    (results : list ConversionResult) : json :=
  JObj [("timestamp_utc", JStr timestamp_utc);
        ("input_dir", JStr (Path.str input_dir));
        ("totals", totals_json results);
        ("results", JArr (map result_json results))].

(** [main] from the parsed command line on (lines 153 to 213);
    [parse_args] is put before it in [script]. *)
Definition main (e : Env) (args : Args) : M Z :=
  let input_dir := Path.parse (input_dir args) in
  let report_json := Path.parse (report_json args) in
  let report_csv := Path.parse (report_csv args) in
  dir_exists ← path_exists input_dir;
  dir_is_dir ← path_is_dir input_dir;
  if negb dir_exists || negb dir_is_dir then
    print ("Input directory does not exist: " +:+ Path.str input_dir);;
    mret 1
  else
    ffmpeg_error ← ensure_ffmpeg e;
    if truthy_opt ffmpeg_error then
      print (default "" ffmpeg_error);; mret 1
    else
      ffmpeg_bin ← look (find_ffmpeg e);
      match ffmpeg_bin with
      | None => print "ffmpeg lookup failed unexpectedly";; mret 1
      | Some ffmpeg_bin =>
          sources ← look (λ n, discover n input_dir);
          results ← convert_all e ffmpeg_bin sources;
          let converted := count_status "converted" results in
          let skipped := count_status "skipped" results in
          let failed := count_status "failed" results in
          write_json_report report_json
            (run_payload (utcnow e) input_dir results);;
          write_csv_report report_csv results;;
          print ("Found: " +:+ Str.of_int (Z.of_nat (length results))
                 +:+ " .m4a files");;
          print ("Using ffmpeg: " +:+ ffmpeg_bin);;
          print ("Converted: " +:+ Str.of_int converted);;
          print ("Skipped: " +:+ Str.of_int skipped);;
          print ("Failed: " +:+ Str.of_int failed);;
          print ("JSON report (history): " +:+ Path.str report_json);;
          print ("CSV report (last run): " +:+ Path.str report_csv);;
          mret (if failed =? 0 then 0 else 2)
      end.

(** [raise SystemExit(main())]: the exit status of the process; an
    exception that escapes [main] ends the process with status 1. *)
Definition exit_status (r : res Z) : Z :=
  match r with
  | Ok code => code
  | Raise _ => 1
  end.

(** ** Notions used in the statements *)

(** The command line [convert_file] hands to [subprocess.run]. *)
Definition ffmpeg_cmd (ffmpeg_bin : string) (src dst : path) : list string :=
  [ffmpeg_bin; "-y"; "-i"; Path.str src; "-vn"; "-codec:a"; "libmp3lame";
   "-q:a"; "2"; Path.str dst].

(** The state after the child process for [cmd] has been run from [st]. *)
Definition after_spawn (e : Env) (cmd : list string) (st : State) : State :=
  {| fs := (spawn e cmd (fs st)).2; console := console st;
     invoked := invoked st ++ [cmd] |}.

(** The three statuses, and only they. *)
Definition known_status (r : ConversionResult) : Prop :=
  status r = "converted" ∨ status r = "skipped" ∨ status r = "failed".

(** The four numbers under ["totals"] of a run record. *)
Definition payload_totals (payload : json) : option (Z * Z * Z * Z) :=
  match payload with
  | JObj fields =>
      match dict_get "totals" fields with
      | Some (JObj totals) =>
          match dict_get "found_m4a" totals, dict_get "converted" totals,
                dict_get "skipped" totals, dict_get "failed" totals with
          | Some (JInt found), Some (JInt converted),
            Some (JInt skipped), Some (JInt failed) =>
              Some (found, converted, skipped, failed)
          | _, _, _, _ => None
          end
      | _ => None
      end
  | _ => None
  end.

(** The height of a tree, to reason by induction on what a directory holds. *)
Fixpoint depth (n : node) : nat :=
  match n with
  | File _ => 0%nat
  | Dir entries =>
      S (map_fold (λ _ child acc, Nat.max (depth child) acc) 0%nat entries)
  end.

(** [p] lies below [root]: it is [root] followed by at least one part. *)
Definition below (root p : path) : Prop :=
  ∃ rest, rest ≠ [] ∧ p = root ++ rest.


(** [Path(s).exists()] for a path given as text. *)
Definition exists_at (n : node) (s : string) : bool :=
  Fs.exists_ n (Path.parse s).

(** The override is honoured: the variable holds a non-empty text that
    names something there is. *)
Definition override_honoured (e : Env) (n : node) : bool :=
  match environ e !! "FFMPEG_BINARY" with
  | Some p => Str.truthy p && exists_at n p
  | None => false
  end.

(** The same surroundings without the variable. *)
Definition without_override (e : Env) : Env :=
  {| environ := delete "FFMPEG_BINARY" (environ e); which := which e;
     spawn := spawn e; utcnow := utcnow e |}.

(** The runs a well-formed history file holds. *)
Definition stored_runs (n : node) (p : path) : option (list json) :=
  match Fs.stat n p with
  | Some (File (Utf8 (JsonText (JObj fields)))) =>
      match dict_get "runs" fields with
      | Some (JArr runs) => Some runs
      | _ => None
      end
  | _ => None
  end.

(** There is no history file yet, and its directory is there or can be
    made. *)
Definition no_store (n : node) (p : path) : Prop :=
  Fs.exists_ n p = false ∧ is_ok (Fs.mkdir_parents n (Path.parent p)) = true.

(** One [write_json_report] per run record, in order. *)
Fixpoint write_reports (p : path) (payloads : list json) : M unit :=
  match payloads with
  | [] => mret ()
  | payload :: rest => write_json_report p payload;; write_reports p rest
  end.

(** What [write_json_report] takes the history to be. *)
Definition history_read (t : text) : json :=
  match t with
  | JsonText v => v
  | CsvText _ | OtherText => JObj [("runs", JArr [])]
  end.

(** A precondition of the run fails: the input directory is missing or is
    not a directory, or no tool is found. *)
Definition precondition_failure (e : Env) (args : Args) (st : State) : Prop :=
  Fs.exists_ (fs st) (Path.parse (input_dir args)) = false
  ∨ Fs.is_dir (fs st) (Path.parse (input_dir args)) = false
  ∨ find_ffmpeg e (fs st) = None.

(** The seven lines printed at the end of a run. *)
Definition summary (args : Args) (ffmpeg_bin : string)
    (results : list ConversionResult) : list string :=
  ["Found: " +:+ Str.of_int (Z.of_nat (length results)) +:+ " .m4a files";
   "Using ffmpeg: " +:+ ffmpeg_bin;
   "Converted: " +:+ Str.of_int (count_status "converted" results);
   "Skipped: " +:+ Str.of_int (count_status "skipped" results);
   "Failed: " +:+ Str.of_int (count_status "failed" results);
   "JSON report (history): " +:+ Path.str (Path.parse (report_json args));
   "CSV report (last run): " +:+ Path.str (Path.parse (report_csv args))].

(** What [main] does once the preconditions hold and the tool is
    [ffmpeg_bin]. *)
Definition run (e : Env) (args : Args) (ffmpeg_bin : string) : M Z :=
  results ← ((λ st, convert_all e ffmpeg_bin
                      (discover (fs st) (Path.parse (input_dir args))) st)
             : M (list ConversionResult));
  write_json_report (Path.parse (report_json args))
    (run_payload (utcnow e) (Path.parse (input_dir args)) results);;
  write_csv_report (Path.parse (report_csv args)) results;;
  ((λ st, (Ok (if count_status "failed" results =? 0 then 0 else 2),
           {| fs := fs st;
              console := console st ++ summary args ffmpeg_bin results;
              invoked := invoked st |})) : M Z).

(** ** A small world to run the script in *)

Module Sample.

(** [data/train] holds two sources; the first has been converted before. *)
Definition tree : node :=
  Dir {[ "bin" := Dir {[ "ffmpeg" := File Binary ]};
         "data" := Dir {[ "train" := Dir {[ "a.m4a" := File Binary;
                                            "a.mp3" := File Binary;
                                            "b.m4a" := File Binary ]} ]} ]}.

(** A tool that writes the output it is asked for and exits with 0. *)
Definition good_tool (cmd : list string) (n : node)
  : res CompletedProcess * node :=
  (Ok {| returncode := 0; stdout := ""; stderr := Some "" |},
   match Fs.write n (Path.parse (default "" (last cmd))) Binary with
   | Ok n' => n'
   | Raise _ => n
   end).

(** A tool that rejects every input. *)
Definition bad_tool (cmd : list string) (n : node)
  : res CompletedProcess * node :=
  (Ok {| returncode := 1; stdout := "";
         stderr := Some "  unsupported codec " |}, n).

Definition env (tool : list string → node → res CompletedProcess * node)
  : Env :=
  {| environ := {[ "FFMPEG_BINARY" := "bin/ffmpeg" ]};
     which := λ _ _, None;
     spawn := tool;
     utcnow := "2024-05-01T10:00:00+00:00" |}.

(** The same, with the tool found on the search path instead. *)
Definition env_which
    (tool : list string → node → res CompletedProcess * node) : Env :=
  {| environ := ∅;
     which := λ _ _, Some "/usr/bin/ffmpeg";
     spawn := tool;
     utcnow := "2024-05-01T10:00:00+00:00" |}.

Definition start : State := {| fs := tree; console := []; invoked := [] |}.

(** The history file of the default command line, and the sample tree
    with a file of the given content there. *)
Definition report : path := ["data"; "train"; "conversion_report.json"].

Definition with_report (c : content) : State :=
  {| fs := match Fs.write tree report c with
           | Ok n => n
           | Raise _ => tree
           end;
     console := []; invoked := [] |}.

Definition one_run : content :=
  Utf8 (JsonText (JObj [("runs", JArr [JStr "first"])])).

Definition no_runs : content :=
  Utf8 (JsonText (JObj [("version", JInt 1)])).

Definition a_m4a : path := ["data"; "train"; "a.m4a"].
Definition a_mp3 : path := ["data"; "train"; "a.mp3"].
Definition b_m4a : path := ["data"; "train"; "b.m4a"].
Definition b_mp3 : path := ["data"; "train"; "b.mp3"].

End Sample.

(** ** Notions used in the further properties *)

(** The results of the sources the tool was run for. *)
Definition attempted (results : list ConversionResult)
  : list ConversionResult :=
  filter (λ r, status r ≠ "skipped") results.

(** The command line for a result, from the paths it records. *)
Definition cmd_of (ffmpeg_bin : string) (r : ConversionResult) : list string :=
  [ffmpeg_bin; "-y"; "-i"; source r; "-vn"; "-codec:a"; "libmp3lame";
   "-q:a"; "2"; target r].

(** The table [write_csv_report] writes for [results]. *)
Definition snapshot (results : list ConversionResult) : content :=
  Utf8 (CsvText (["source"; "target"; "status"; "error"]
                 :: map csv_row results)).

(** A command line that gives both reports the same path. *)
Definition shared_report_args : Args :=
  {| input_dir := "data/train"; report_json := "out/report";
     report_csv := "out/report" |}.

(** A tool that exits with 0 when it could write the output it is asked
    for, and with 1, leaving everything as it is, when it could not. *)
Definition careful_tool (cmd : list string) (n : node)
  : res CompletedProcess * node :=
  match Fs.write n (Path.parse (default "" (last cmd))) Binary with
  | Ok n' => (Ok {| returncode := 0; stdout := ""; stderr := Some "" |}, n')
  | Raise _ =>
      (Ok {| returncode := 1; stdout := ""; stderr := Some "cannot write" |},
       n)
  end.


(** ** The command line *)

(** What [parser.parse_args()] makes of the command line, which is an
    input of a run as the tool is: the three values, the defaults filled in
    for the options that are missing; or, for [-h] and [--help], the help
    text written to standard output and [SystemExit(0)]; or, for a command
    line that [argparse] rejects, a message on standard error and
    [SystemExit(2)]. *)
Inductive ParseOutcome :=
  | Parsed (args : Args)
  | HelpShown (help : string)
  | UsageError (message : string).

(** [raise SystemExit(main())], with [main] from its first line: the exit
    status of the process and the state it leaves.  [SystemExit] raised by
    [parse_args] ends the process with the status it carries, before
    anything else is done; the console holds what is written to standard
    output. *)
Definition script (e : Env) (cl : ParseOutcome) (st : State) : Z * State :=
  match cl with
  | Parsed args => (exit_status (main e args st).1, (main e args st).2)
  | HelpShown help =>
      (0, {| fs := fs st; console := console st ++ [help];
             invoked := invoked st |})
  | UsageError _ => (2, st)
  end.

(** ** scripts/remap_labelstudio_audio_paths.py: [extract_filename] *)

(** The four characters [\.mp3] matches when case is ignored. *)
Definition is_mp3_ext (l : list ascii) : bool :=
  match l with
  | [dot; m; p; three] =>
      bool_decide (dot = "."%char)
      && (bool_decide (m = "m"%char) || bool_decide (m = "M"%char))
      && (bool_decide (p = "p"%char) || bool_decide (p = "P"%char))
      && bool_decide (three = "3"%char)
  | _ => false
  end.

(** What the group [([^/]+\.mp3)] can hold: one character or more, none
    of them a slash, and then [.mp3] in any case. *)
Definition mp3_name (g : list ascii) : bool :=
  let k := (length g - 4)%nat in
  bool_decide (5 ≤ length g)%nat
  && is_mp3_ext (drop k g)
  && bool_decide ("/"%char ∉ take k g).

(** The group of a match of [([^/]+\.mp3)$] that starts where [rest]
    starts: the match has to reach the end of the text, or the newline that
    ends it; the greedy [+] tries the longer one first. *)
Definition match_group (rest : list ascii) : option (list ascii) :=
  if mp3_name rest then Some rest
  else if bool_decide (last rest = Some "010"%char)
          && mp3_name (removelast rest)
  then Some (removelast rest)
  else None.

(** [re.search(r"-([^/]+\.mp3)$", base, flags=re.IGNORECASE)], as the
    group of the match: the search takes the first hyphen from which the
    rest of the pattern matches. *)
Fixpoint search_group (base : list ascii) : option (list ascii) :=
  match base with
  | [] => None
  | a :: rest =>
      if decide (a = "-"%char) then
        match match_group rest with
        | Some g => Some g
        | None => search_group rest
        end
      else search_group rest
  end.

Definition extract_filename (value : string) : string :=
  let base := Path.name (Path.parse value) in
  match search_group (Str.chars base) with
  | Some g => Str.of_chars g
  | None => base
  end.

(** * Properties *)

(** ** Stepping through a computation *)

Lemma bind_ok {A B} (m : M A) (k : A → M B) st a st' :
  m st = (Ok a, st') → (m ≫= k) st = k a st'.
Proof. intros Hm. unfold mbind, M_bind. by rewrite Hm. Qed.

Lemma bind_raise {A B} (m : M A) (k : A → M B) st e st' :
  m st = (Raise e, st') → (m ≫= k) st = (Raise e, st').
Proof. intros Hm. unfold mbind, M_bind. by rewrite Hm. Qed.

Lemma bind_inv_ok {A B} (m : M A) (k : A → M B) st b st2 :
  (m ≫= k) st = (Ok b, st2) →
  ∃ a st1, m st = (Ok a, st1) ∧ k a st1 = (Ok b, st2).
Proof.
  unfold mbind, M_bind. destruct (m st) as [[a|e] st1]; [eauto|done].
Qed.

Lemma bind_look {A B} (f : node → A) (k : A → M B) st :
  (look f ≫= k) st = k (f (fs st)) st.
Proof. done. Qed.

Lemma bind_print {B} line (k : unit → M B) st :
  (print line ≫= k) st =
  k () {| fs := fs st; console := console st ++ [line];
          invoked := invoked st |}.
Proof. done. Qed.

(** ** The conversion unit *)

Lemma convert_file_skip e src dst ffmpeg_bin st :
  Fs.exists_ (fs st) dst = true →
  convert_file e src dst ffmpeg_bin st
  = (Ok (result src dst "skipped" "target_exists"), st).
Proof.
  intros Hdst. unfold convert_file, path_exists.
  rewrite bind_look, Hdst. done.
Qed.

Lemma convert_file_run e src dst ffmpeg_bin st :
  Fs.exists_ (fs st) dst = false →
  convert_file e src dst ffmpeg_bin st
  = (Ok (match (spawn e (ffmpeg_cmd ffmpeg_bin src dst) (fs st)).1 with
         | Raise exc => result src dst "failed" (exn_msg exc)
         | Ok completed =>
             if returncode completed =? 0 then result src dst "converted" ""
             else
               let stripped := Str.strip (default "" (stderr completed)) in
               result src dst "failed"
                 (if Str.truthy stripped then stripped
                  else "ffmpeg exited with code "
                       +:+ Str.of_int (returncode completed))
         end),
     after_spawn e (ffmpeg_cmd ffmpeg_bin src dst) st).
Proof.
  intros Hdst. unfold convert_file, path_exists.
  rewrite bind_look, Hdst.
  unfold mbind, M_bind, try_except, subprocess_run, after_spawn, ffmpeg_cmd.
  destruct (spawn e _ (fs st)) as [[completed|exc] n]; simpl; [|done].
  by destruct (returncode completed =? 0).
Qed.

(** Whatever the file system and the tool do, [convert_file] returns a
    result with one of the three statuses. *)
Lemma convert_file_returns e src dst ffmpeg_bin st :
  ∃ r st', convert_file e src dst ffmpeg_bin st = (Ok r, st')
    ∧ source r = Path.str src ∧ target r = Path.str dst
    ∧ (status r = "converted" ∨ status r = "skipped" ∨ status r = "failed").
Proof.
  destruct (Fs.exists_ (fs st) dst) eqn:Hdst.
  - eexists _, _. split; [by apply convert_file_skip|]. simpl. auto.
  - eexists _, _. split; [by apply convert_file_run|].
    destruct (spawn e _ (fs st)) as [[completed|exc] n]; simpl; [|auto].
    destruct (returncode completed =? 0); simpl; auto.
Qed.

Lemma count_status_cons s r results :
  count_status s (r :: results)
  = (if decide (status r = s) then 1 else 0) + count_status s results.
Proof.
  unfold count_status. rewrite filter_cons.
  destruct (decide (status r = s)); simpl length; lia.
Qed.

Lemma count_status_nonneg s results : 0 ≤ count_status s results.
Proof. unfold count_status. lia. Qed.

Lemma count_partition results :
  Forall known_status results →
  Z.of_nat (length results)
  = count_status "converted" results + count_status "skipped" results
    + count_status "failed" results.
Proof.
  induction 1 as [|r results Hr _ IH]; [done|].
  rewrite !count_status_cons. simpl length.
  destruct Hr as [Hr|[Hr|Hr]]; rewrite Hr; simpl; lia.
Qed.

(** Each source the loop is given yields one result, in order, and the
    loop stops early only when a target path cannot be formed. *)
Lemma convert_all_inv e ffmpeg_bin sources st results st' :
  convert_all e ffmpeg_bin sources st = (Ok results, st') →
  Forall2 (λ src r, ∃ dst, Path.with_suffix src ".mp3" = Ok dst
             ∧ source r = Path.str src ∧ target r = Path.str dst
             ∧ known_status r) sources results.
Proof.
  revert st results. induction sources as [|src rest IH]; intros st results.
  - intros [= <- <-]. constructor.
  - simpl. intros H.
    apply bind_inv_ok in H as (dst & st1 & Hdst & H).
    apply bind_inv_ok in H as (r & st2 & Hr & H).
    apply bind_inv_ok in H as (rs & st3 & Hrs & H).
    injection H as <- <-. injection Hdst as Hdst <-.
    constructor; [|by eapply IH].
    destruct (convert_file_returns e src dst ffmpeg_bin st)
      as (r' & st' & Hr' & ? & ? & ?).
    rewrite Hr in Hr'. injection Hr' as <- <-. eauto 10.
Qed.

Lemma convert_all_total e ffmpeg_bin sources st :
  Forall (λ src, is_ok (Path.with_suffix src ".mp3") = true) sources →
  ∃ results st', convert_all e ffmpeg_bin sources st = (Ok results, st').
Proof.
  intros Hsrc. revert st. induction Hsrc as [|src rest Hsrc _ IH]; intros st.
  - by eexists _, _.
  - destruct (Path.with_suffix src ".mp3") as [dst|] eqn:Hdst; [|done].
    destruct (convert_file_returns e src dst ffmpeg_bin st)
      as (r & st1 & Hr & _).
    destruct (IH st1) as (rs & st2 & Hrs).
    exists (r :: rs), st2. simpl. rewrite Hdst.
    erewrite bind_ok; [|done]. erewrite bind_ok; [|done].
    erewrite bind_ok; [|done]. done.
Qed.

(** ** Strings *)

Lemma chars_of_chars l : Str.chars (Str.of_chars l) = l.
Proof. apply String.list_ascii_of_string_of_list_ascii. Qed.

Lemma of_chars_chars s : Str.of_chars (Str.chars s) = s.
Proof. apply String.string_of_list_ascii_of_string. Qed.

Lemma chars_inj s1 s2 : Str.chars s1 = Str.chars s2 → s1 = s2.
Proof. intros H. by rewrite <-(of_chars_chars s1), H, of_chars_chars. Qed.

Lemma chars_app s1 s2 : Str.chars (s1 +:+ s2) = Str.chars s1 ++ Str.chars s2.
Proof. induction s1 as [|a s1 IH]; [done|]. simpl. f_equal. apply IH. Qed.

Lemma of_chars_app l1 l2 :
  Str.of_chars (l1 ++ l2) = Str.of_chars l1 +:+ Str.of_chars l2.
Proof. apply chars_inj. by rewrite chars_app, !chars_of_chars. Qed.

Lemma endswith_iff s suf :
  Str.endswith s suf = true ↔ ∃ stem, s = stem +:+ suf.
Proof.
  unfold Str.endswith. rewrite bool_decide_eq_true. split.
  - intros [l Hl]. exists (Str.of_chars l). apply chars_inj.
    by rewrite chars_app, chars_of_chars.
  - intros [stem ->]. exists (Str.chars stem). apply chars_app.
Qed.

Lemma truthy_iff s : Str.truthy s = true ↔ s ≠ "".
Proof.
  unfold Str.truthy. rewrite negb_true_iff, bool_decide_eq_false. done.
Qed.

Lemma rfind_from_app c i l1 l2 :
  Str.rfind_from c i (l1 ++ l2)
  = match Str.rfind_from c (i + Z.of_nat (length l1)) l2 with
    | Some j => Some j
    | None => Str.rfind_from c i l1
    end.
Proof.
  revert i. induction l1 as [|a l1 IH]; intros i; simpl.
  - rewrite Z.add_0_r. by destruct (Str.rfind_from c i l2).
  - rewrite IH. replace (i + 1 + Z.of_nat (length l1))
      with (i + Z.of_nat (S (length l1))) by lia.
    by destruct (Str.rfind_from c _ l2).
Qed.

(** A name that ends in [.m4a] gets [.mp3] in its place, except the bare
    name [.m4a], which [pathlib] reads as a name without a suffix. *)
Lemma with_suffix_m4a p stem :
  Path.name p = stem +:+ ".m4a" →
  Path.with_suffix p ".mp3"
  = Ok (removelast p ++ [if decide (stem = "") then ".m4a.mp3"
                         else stem +:+ ".mp3"]).
Proof.
  intros Hname. unfold Path.with_suffix.
  replace (bool_decide ("/"%char ∈ Str.chars ".mp3")) with false
    by (by vm_compute).
  replace (Str.truthy ".mp3" && negb (Str.startswith ".mp3" ".")
           || bool_decide (".mp3" = ".")) with false by done.
  assert (Hlen : Str.len (Path.name p) = Z.of_nat (length (Str.chars stem)) + 4).
  { unfold Str.len. rewrite Hname, chars_app, length_app. simpl. lia. }
  assert (Hrfind : Str.rfind (Path.name p) "." = Z.of_nat (length (Str.chars stem))).
  { unfold Str.rfind. rewrite Hname, chars_app, rfind_from_app. done. }
  assert (Htruthy : Str.truthy (Path.name p) = true).
  { apply truthy_iff. rewrite Hname. by destruct stem. }
  rewrite Htruthy. cbn [negb]. unfold Path.suffix.
  rewrite Hrfind, Hlen. destruct (decide (stem = "")) as [->|Hstem].
  - simpl. by rewrite Hname.
  - assert (0 < Z.of_nat (length (Str.chars stem))).
    { destruct stem; [done|]. simpl. lia. }
    replace (0 <? _) with true by (symmetry; apply Z.ltb_lt; lia).
    replace (_ <? _) with true by (symmetry; apply Z.ltb_lt; lia).
    cbn [andb]. unfold Str.slice_from, Str.slice_to.
    rewrite Hname, chars_app, Nat2Z.id, drop_app_length. cbn [negb Str.truthy].
    replace (Str.truthy (Str.of_chars (Str.chars ".m4a"))) with true by done.
    cbn [negb]. unfold Str.len. rewrite chars_of_chars.
    replace (Z.to_nat _) with (length (Str.chars stem)) by (simpl; lia).
    by rewrite take_app_length, of_chars_chars.
Qed.

(** ** The order of paths *)

Lemma string_leb_refl a : String.leb a a = true.
Proof. apply Is_true_true. change (String.le a a). done. Qed.

Lemma string_leb_trans a b c :
  String.leb a b = true → String.leb b c = true → String.leb a c = true.
Proof.
  intros Hab%Is_true_true Hbc%Is_true_true. apply Is_true_true.
  change (String.le a c). by trans b.
Qed.

Lemma string_leb_antisym a b :
  String.leb a b = true → String.leb b a = true → a = b.
Proof. apply String.leb_antisym. Qed.

Lemma path_leb_refl p : Path.leb p p = true.
Proof.
  induction p as [|a p IH]; [done|]. simpl.
  by rewrite bool_decide_eq_true_2.
Qed.

#[global] Instance path_le_total : Total Path.le.
Proof.
  unfold Path.le. intros p. induction p as [|a p IH]; intros [|b q];
    simpl; auto.
  destruct (decide (a = b)) as [->|Hab].
  - rewrite bool_decide_eq_true_2 by done. apply IH.
  - rewrite !bool_decide_eq_false_2 by done. apply String.leb_total.
Qed.

#[global] Instance path_le_trans : Transitive Path.le.
Proof.
  unfold Path.le. intros p. induction p as [|a p IH]; intros [|b q] [|c r];
    simpl; try done.
  destruct (decide (a = b)) as [->|Hab].
  - rewrite bool_decide_eq_true_2 by done.
    destruct (decide (b = c)) as [->|Hbc].
    + rewrite bool_decide_eq_true_2 by done. apply IH.
    + by rewrite bool_decide_eq_false_2 by done.
  - rewrite (bool_decide_eq_false_2 (a = b)) by done.
    destruct (decide (b = c)) as [->|Hbc].
    + rewrite bool_decide_eq_true_2 by done.
      by rewrite bool_decide_eq_false_2 by done.
    + rewrite (bool_decide_eq_false_2 (b = c)) by done.
      intros Hab' Hbc'. destruct (decide (a = c)) as [->|Hac].
      * destruct Hab. by apply string_leb_antisym.
      * rewrite bool_decide_eq_false_2 by done. by eapply string_leb_trans.
Qed.

#[global] Instance path_le_antisym : AntiSymm (=) Path.le.
Proof.
  unfold Path.le. intros p. induction p as [|a p IH]; intros [|b q];
    simpl; try done.
  destruct (decide (a = b)) as [->|Hab].
  - rewrite !bool_decide_eq_true_2 by done. intros ??. f_equal. by apply IH.
  - rewrite !bool_decide_eq_false_2 by done. intros ??.
    destruct Hab. by apply string_leb_antisym.
Qed.

(** ** Walking the tree *)

Lemma depth_child entries part child :
  entries !! part = Some child → (depth child < depth (Dir entries))%nat.
Proof.
  intros Hchild%elem_of_map_to_list. simpl. rewrite map_fold_foldr.
  induction (map_to_list entries) as [|[k c] l IH]; [by apply elem_of_nil in Hchild|].
  apply elem_of_cons in Hchild as [[= <- <-]|Hchild]; simpl.
  - lia.
  - specialize (IH Hchild). lia.
Qed.

Lemma node_children_ind (P : node → Prop) :
  (∀ c, P (File c)) →
  (∀ entries,
     (∀ part child, entries !! part = Some child → P child) →
     P (Dir entries)) →
  ∀ n, P n.
Proof.
  intros Hfile Hdir n.
  remember (depth n) as d eqn:Hd. revert n Hd.
  induction (lt_wf d) as [d _ IH]. intros n ->.
  destruct n as [c|entries]; [apply Hfile|].
  apply Hdir. intros part child Hchild.
  eapply IH; [|done]. by eapply depth_child.
Qed.

Lemma walk_dir pre entries :
  Fs.walk pre (Dir entries)
  = map_to_list entries ≫= λ entry,
      (pre ++ [entry.1]) :: Fs.walk (pre ++ [entry.1]) entry.2.
Proof.
  simpl. rewrite map_fold_foldr.
  induction (map_to_list entries) as [|[k c] l IH]; [done|].
  simpl. by rewrite IH.
Qed.

Lemma stat_app n p q : Fs.stat n (p ++ q) = Fs.stat n p ≫= λ d, Fs.stat d q.
Proof.
  revert n. induction p as [|part p IH]; intros n; [done|].
  simpl. destruct n as [|entries]; [done|].
  destruct (entries !! part) as [child|]; simpl; [apply IH|done].
Qed.

Lemma elem_of_walk n pre p :
  p ∈ Fs.walk pre n
  ↔ ∃ rest, rest ≠ [] ∧ p = pre ++ rest ∧ is_Some (Fs.stat n rest).
Proof.
  revert pre p. induction n as [c|entries IH] using node_children_ind;
    intros pre p.
  - split; [by intros ?%elem_of_nil|].
    intros ([|part rest] & ? & _ & [? Hstat]); done.
  - rewrite walk_dir, list_elem_of_bind. split.
    + intros ([part child] & Hp & Hentry%elem_of_map_to_list). simpl in Hp.
      apply elem_of_cons in Hp as [->|Hp].
      * exists [part]. simpl. rewrite Hentry. eauto.
      * apply (IH part child Hentry) in Hp as (rest & ? & -> & Hstat).
        exists (part :: rest). rewrite <-(assoc_L (++)). simpl.
        rewrite Hentry. done.
    + intros ([|part rest] & ? & -> & Hstat); [done|].
      simpl in Hstat. destruct (entries !! part) as [child|] eqn:Hentry;
        [|by destruct Hstat].
      exists (part, child). split; [|by apply elem_of_map_to_list].
      simpl. apply elem_of_cons. destruct rest as [|part' rest]; [by left|right].
      apply (IH part child Hentry). exists (part' :: rest).
      by rewrite <-(assoc_L (++)).
Qed.


(** ** Discovery *)

Lemma elem_of_rglob n root ext p :
  p ∈ Fs.rglob n root ext
  ↔ below root p ∧ Fs.exists_ n p = true
    ∧ Str.endswith (Path.name p) ext = true.
Proof.
  unfold Fs.rglob, below, Fs.exists_, Path.matches_ext.
  rewrite bool_decide_eq_true.
  destruct (Fs.stat n root) as [d|] eqn:Hroot.
  - rewrite list_elem_of_filter, elem_of_walk. split.
    + intros (? & rest & ? & -> & ?). rewrite stat_app, Hroot. eauto.
    + intros ((rest & ? & ->) & Hstat & ?). rewrite stat_app, Hroot in Hstat.
      eauto.
  - split; [by intros ?%elem_of_nil|].
    intros ((rest & ? & ->) & Hstat & ?). rewrite stat_app, Hroot in Hstat.
    by destruct Hstat.
Qed.

Lemma elem_of_discover n root p :
  p ∈ discover n root
  ↔ below root p ∧ Fs.exists_ n p = true
    ∧ Str.endswith (Path.name p) ".m4a" = true.
Proof.
  unfold discover. rewrite merge_sort_Permutation. apply elem_of_rglob.
Qed.



Lemma discover_targets n root :
  Forall (λ src, is_ok (Path.with_suffix src ".mp3") = true) (discover n root).
Proof.
  apply Forall_forall. intros src (_ & _ & [stem Hname]%endswith_iff)%elem_of_discover.
  by rewrite (with_suffix_m4a _ _ Hname).
Qed.



(** ** The tool locator *)

Lemma find_ffmpeg_truthy e n tool :
  find_ffmpeg e n = Some tool → tool ≠ "".
Proof.
  unfold find_ffmpeg.
  destruct (environ e !! "FFMPEG_BINARY") as [p|] eqn:Henv; simpl.
  - destruct (Str.truthy p) eqn:Hp; simpl.
    + destruct (Fs.exists_ n (Path.parse p)).
      * intros [= <-]. by apply truthy_iff.
      * destruct (which e "ffmpeg" n) as [q|]; simpl.
        -- destruct (Str.truthy q) eqn:Hq;
             [intros [= <-]; by apply truthy_iff|].
           repeat case_match; by intros [= <-].
        -- repeat case_match; by intros [= <-].
    + destruct (which e "ffmpeg" n) as [q|]; simpl.
      * destruct (Str.truthy q) eqn:Hq;
          [intros [= <-]; by apply truthy_iff|].
        repeat case_match; by intros [= <-].
      * repeat case_match; by intros [= <-].
  - destruct (which e "ffmpeg" n) as [q|]; simpl.
    + destruct (Str.truthy q) eqn:Hq;
        [intros [= <-]; by apply truthy_iff|].
      repeat case_match; by intros [= <-].
    + repeat case_match; by intros [= <-].
Qed.

(** C7: the override wins when it is set and names an existing path; an
    override that is unset, empty or names nothing is passed over as if it
    were not there; then the search-path lookup decides if it finds
    anything, then the first of the two fallback locations that exists, and
    otherwise nothing is found. *)
Theorem find_ffmpeg_precedence (e : Env) (n : node) :
  (∀ p, environ e !! "FFMPEG_BINARY" = Some p → p ≠ "" →
        exists_at n p = true → find_ffmpeg e n = Some p)
  ∧ (override_honoured e n = false →
     find_ffmpeg e n = find_ffmpeg (without_override e) n
     ∧ (∀ q, which e "ffmpeg" n = Some q → q ≠ "" →
             find_ffmpeg e n = Some q)
     ∧ (which e "ffmpeg" n = None →
        (exists_at n "/opt/homebrew/bin/ffmpeg" = true →
         find_ffmpeg e n = Some "/opt/homebrew/bin/ffmpeg")
        ∧ (exists_at n "/opt/homebrew/bin/ffmpeg" = false →
           exists_at n "/usr/local/bin/ffmpeg" = true →
           find_ffmpeg e n = Some "/usr/local/bin/ffmpeg")
        ∧ (exists_at n "/opt/homebrew/bin/ffmpeg" = false →
           exists_at n "/usr/local/bin/ffmpeg" = false →
           find_ffmpeg e n = None))).
Proof.
  unfold override_honoured, exists_at, find_ffmpeg. split.
  - intros p -> Hp%truthy_iff Hex. simpl. by rewrite Hp, Hex.
  - intros Hov. simpl. rewrite lookup_delete_eq. simpl.
    assert (truthy_opt (environ e !! "FFMPEG_BINARY")
            && Fs.exists_ n (Path.parse (default "" (environ e !! "FFMPEG_BINARY")))
            = false) as ->.
    { by destruct (environ e !! "FFMPEG_BINARY"). }
    split; [done|]. split.
    + intros q -> Hq%truthy_iff. simpl. by rewrite Hq.
    + intros ->. simpl. split; [by intros ->|].
      split; [by intros -> ->|by intros -> ->].
Qed.

(** C7 at work: the variable names a path that is not there, the search
    path has the tool, and the search path is what is returned. *)
Lemma find_ffmpeg_precedence_witness :
  let e := {| environ := {[ "FFMPEG_BINARY" := "/nowhere/ffmpeg" ]};
              which := λ _ _, Some "/usr/bin/ffmpeg";
              spawn := λ _ n, (Raise (Exn OSError ""), n);
              utcnow := "" |} in
  override_honoured e (Dir ∅) = false
  ∧ find_ffmpeg e (Dir ∅) = Some "/usr/bin/ffmpeg".
Proof.
  intros e. split; [by vm_compute|].
  refine (proj1 (proj2 (proj2 (find_ffmpeg_precedence e (Dir ∅)) _))
            "/usr/bin/ffmpeg" _ _); by vm_compute.
Defined.

(** ** C4: the outcome of one conversion *)

(** C4: when the target is not there, [convert_file] runs the tool once
    and returns, never raising, a result fixed by what the child process
    did: it could not be started, and the result is [failed] with the
    text of the exception; it exited with 0, and the result is [converted]
    with no error text; it exited with another code, and the result is
    [failed] with the trimmed standard error, or, when that is empty, with
    a message that names the code. *)
Theorem convert_file_outcome (e : Env) (src dst : path) (ffmpeg_bin : string)
    (st : State) :
  Fs.exists_ (fs st) dst = false →
  let cmd := ffmpeg_cmd ffmpeg_bin src dst in
  ∃ r, convert_file e src dst ffmpeg_bin st = (Ok r, after_spawn e cmd st)
    ∧ source r = Path.str src ∧ target r = Path.str dst
    ∧ (∀ exc, (spawn e cmd (fs st)).1 = Raise exc →
         status r = "failed" ∧ error r = exn_msg exc)
    ∧ (∀ completed, (spawn e cmd (fs st)).1 = Ok completed →
         returncode completed = 0 →
         status r = "converted" ∧ error r = "")
    ∧ (∀ completed, (spawn e cmd (fs st)).1 = Ok completed →
         returncode completed ≠ 0 →
         let trimmed := Str.strip (default "" (stderr completed)) in
         status r = "failed"
         ∧ (trimmed ≠ "" → error r = trimmed)
         ∧ (trimmed = "" →
            error r = "ffmpeg exited with code "
                      +:+ Str.of_int (returncode completed))).
Proof.
  intros Hdst cmd. subst cmd. rewrite (convert_file_run e src dst ffmpeg_bin st Hdst).
  destruct (spawn e _ (fs st)) as [[completed|exc] n]; simpl.
  - destruct (returncode completed =? 0) eqn:Hcode.
    + apply Z.eqb_eq in Hcode. eexists. split; [done|].
      split_and!; [done..| |]; intros ? [= <-]; done.
    + apply Z.eqb_neq in Hcode. eexists. split; [done|].
      split_and!; [done..| |]; intros ? [= <-] ?; [done|].
      simpl. split_and!; [done| |].
      * intros Htrim%truthy_iff. by rewrite Htrim.
      * intros Htrim. by rewrite Htrim.
  - eexists. split; [done|]. split_and!; [done|done| |done|done].
    by intros ? [= <-].
Qed.

(** C4 at work: [b.mp3] is missing and the tool exits with 1. *)
Lemma convert_file_outcome_witness :
  Fs.exists_ (fs Sample.start) Sample.b_mp3 = false
  ∧ ∃ r, convert_file (Sample.env Sample.bad_tool) Sample.b_m4a Sample.b_mp3
           "bin/ffmpeg" Sample.start
         = (Ok r, after_spawn (Sample.env Sample.bad_tool)
                    (ffmpeg_cmd "bin/ffmpeg" Sample.b_m4a Sample.b_mp3)
                    Sample.start)
      ∧ status r = "failed" ∧ error r = "unsupported codec".
Proof.
  split; [by vm_compute|].
  destruct (convert_file_outcome (Sample.env Sample.bad_tool) Sample.b_m4a
              Sample.b_mp3 "bin/ffmpeg" Sample.start)
    as (r & Hr & _ & _ & _ & _ & Hfail); [by vm_compute|].
  exists r. split; [done|].
  destruct (Hfail {| returncode := 1; stdout := "";
                     stderr := Some "  unsupported codec " |})
    as (Hstatus & Herr & _); [done..|].
  split; [done|]. by apply Herr.
Defined.

(** ** The totals of a run *)

(** The results of a loop that got through each carry one of the three
    statuses, there is one per source, and the totals of the run record
    made from them add up. *)
Lemma totals_add_up e ffmpeg_bin sources st st' results timestamp dir :
  convert_all e ffmpeg_bin sources st = (Ok results, st') →
  Forall known_status results
  ∧ ∃ found converted skipped failed,
      payload_totals (run_payload timestamp dir results)
      = Some (found, converted, skipped, failed)
      ∧ found = Z.of_nat (length sources)
      ∧ converted = count_status "converted" results
      ∧ skipped = count_status "skipped" results
      ∧ failed = count_status "failed" results
      ∧ found = converted + skipped + failed.
Proof.
  intros Hrun%convert_all_inv.
  assert (Forall known_status results) as Hknown.
  { clear -Hrun. induction Hrun as [|???? (?&?&?&?&?) _ IH]; by constructor. }
  split; [done|]. eexists _, _, _, _. split; [done|].
  split; [by rewrite (Forall2_length _ _ _ Hrun)|].
  repeat split; try done. by apply count_partition.
Qed.

(** ** Files and directories *)

Lemma set_fs_id st : set_fs (fs st) st = st.
Proof. by destruct st. Qed.

Lemma removelast_last (p : path) :
  p ≠ [] → p = removelast p ++ [default "" (last p)].
Proof.
  induction p as [|a [|b p] IH]; [done|done|]. intros _.
  rewrite last_cons_cons. change (removelast (a :: b :: p))
    with (a :: removelast (b :: p)).
  simpl app. f_equal. by apply IH.
Qed.

(** A path with a name is its parent followed by that name. *)
Lemma parent_name p :
  Path.name p ≠ "" → p = Path.parent p ++ [Path.name p].
Proof.
  unfold Path.name, Path.parent. destruct p as [|a [|b p]]; [done| |].
  - by destruct (Path.is_anchor a).
  - intros _. by apply removelast_last.
Qed.

Lemma stat_snoc_dir n q a x :
  Fs.stat n (q ++ [a]) = Some x → Fs.is_dir n q = true.
Proof.
  rewrite stat_app. unfold Fs.is_dir.
  destruct (Fs.stat n q) as [[c|entries]|]; done.
Qed.

Lemma stat_parent_dir n p x :
  Path.name p ≠ "" → Fs.stat n p = Some x →
  Fs.is_dir n (Path.parent p) = true.
Proof.
  intros Hname%parent_name Hstat. rewrite Hname in Hstat.
  by eapply stat_snoc_dir.
Qed.

Lemma mkdir_parents_dir n p :
  Fs.is_dir n p = true → Fs.mkdir_parents n p = Ok n.
Proof.
  unfold Fs.is_dir. revert n. induction p as [|part p IH]; intros n.
  - simpl. by destruct n.
  - simpl. destruct n as [c|entries]; [done|].
    destruct (entries !! part) as [child|] eqn:Hchild; [|done]. simpl.
    intros Hdir. rewrite (IH _ Hdir). simpl. by rewrite insert_id.
Qed.

Lemma mkdir_parents_is_dir n p n' :
  Fs.mkdir_parents n p = Ok n' → Fs.is_dir n' p = true.
Proof.
  unfold Fs.is_dir. revert n n'. induction p as [|part p IH]; intros n n'.
  - simpl. destruct n; [done|]. by intros [= <-].
  - simpl. destruct n as [c|entries]; [done|].
    destruct (Fs.mkdir_parents _ p) as [child'|] eqn:Hchild; [|done].
    simpl. intros [= <-]. rewrite lookup_insert_eq. simpl. by eapply IH.
Qed.

Lemma stat_empty_dir p : p ≠ [] → Fs.stat (Dir ∅) p = None.
Proof. destruct p; [done|]. intros _. simpl. by rewrite lookup_empty. Qed.

(** Making the directories on the way to [q] does not put anything at
    [q ++ [a]] that was not there. *)
Lemma mkdir_parents_child n q a n' :
  Fs.mkdir_parents n q = Ok n' →
  Fs.stat n' (q ++ [a]) = Fs.stat n (q ++ [a]).
Proof.
  revert n n'. induction q as [|part q IH]; intros n n'.
  - simpl. destruct n; [done|]. by intros [= <-].
  - simpl. destruct n as [c|entries]; [done|].
    destruct (Fs.mkdir_parents _ (q)) as [child'|] eqn:Hchild; [|done].
    simpl. intros [= <-]. rewrite lookup_insert_eq. simpl.
    rewrite (IH _ _ Hchild). destruct (entries !! part); [done|]. simpl.
    apply stat_empty_dir. by destruct q.
Qed.

Lemma write_stat n p c n' :
  Fs.write n p c = Ok n' → Fs.stat n' p = Some (File c).
Proof.
  revert n n'. induction p as [|part p IH]; intros n n'.
  - simpl. destruct n; [|done]. by intros [= <-].
  - simpl. destruct n as [c0|entries]; [done|].
    destruct (entries !! part) as [child|] eqn:Hchild.
    + destruct (Fs.write child p c) as [child'|] eqn:Hw; [|done].
      simpl. intros [= <-]. rewrite lookup_insert_eq. simpl. by eapply IH.
    + destruct p; [|done]. intros [= <-]. by rewrite lookup_insert_eq.
Qed.

(** Writing succeeds when the directory is there and the path is not a
    directory itself. *)
Lemma write_ok n q a c :
  Fs.is_dir n q = true → Fs.is_dir n (q ++ [a]) = false →
  ∃ n', Fs.write n (q ++ [a]) c = Ok n'.
Proof.
  unfold Fs.is_dir. revert n. induction q as [|part q IH]; intros n.
  - simpl. destruct n as [c0|entries]; [done|]. intros _.
    destruct (entries !! a) as [[c1|sub]|]; simpl; [eauto|done|eauto].
  - simpl. destruct n as [c0|entries]; [done|].
    destruct (entries !! part) as [child|] eqn:Hchild; [|done]. simpl.
    intros Hq Hqa. destruct (IH child Hq Hqa) as [child' ->]. simpl. eauto.
Qed.

Lemma write_existing n p c0 c :
  Path.name p ≠ "" → Fs.stat n p = Some (File c0) →
  ∃ n', Fs.write n p c = Ok n'.
Proof.
  intros Hname Hstat. rewrite (parent_name p Hname). apply write_ok.
  - by eapply stat_parent_dir.
  - unfold Fs.is_dir. by rewrite <-(parent_name p Hname), Hstat.
Qed.

(** Neither making directories nor writing a file removes anything. *)
Lemma write_keeps n p c n' q :
  Fs.write n p c = Ok n' →
  Fs.exists_ n q = true → Fs.exists_ n' q = true.
Proof.
  unfold Fs.exists_. rewrite !bool_decide_eq_true.
  revert n n' q. induction p as [|part p IH]; intros n n' q.
  - simpl. destruct n as [c0|]; [|done]. intros [= <-].
    destruct q; [eauto|]. simpl. by intros [].
  - simpl. destruct n as [c0|entries]; [done|].
    destruct q as [|b q]; [by eauto|]. simpl.
    destruct (entries !! part) as [child|] eqn:Hchild.
    + destruct (Fs.write child p c) as [child'|] eqn:Hw; [|done].
      simpl. intros [= <-]. destruct (decide (part = b)) as [<-|Hne].
      * rewrite Hchild, lookup_insert_eq. simpl. by eapply IH.
      * by rewrite lookup_insert_ne.
    + destruct p; [|done]. intros [= <-].
      destruct (decide (part = b)) as [<-|Hne].
      * rewrite Hchild. simpl. by intros [].
      * by rewrite lookup_insert_ne.
Qed.

Lemma mkdir_parents_keeps n p n' q :
  Fs.mkdir_parents n p = Ok n' →
  Fs.exists_ n q = true → Fs.exists_ n' q = true.
Proof.
  unfold Fs.exists_. rewrite !bool_decide_eq_true.
  revert n n' q. induction p as [|part p IH]; intros n n' q.
  - simpl. destruct n; [done|]. by intros [= <-].
  - simpl. destruct n as [c0|entries]; [done|].
    destruct (Fs.mkdir_parents _ p) as [child'|] eqn:Hchild; [|done].
    simpl. intros [= <-]. destruct q as [|b q]; [by eauto|]. simpl.
    destruct (decide (part = b)) as [<-|Hne].
    + rewrite lookup_insert_eq.
      destruct (entries !! part) as [child|]; [|by intros []].
      simpl. by eapply IH.
    + by rewrite lookup_insert_ne.
Qed.

(** ** Dicts *)

Lemma dict_get_set k k' v fields :
  dict_get k (dict_set k' v fields)
  = if decide (k' = k) then Some v else dict_get k fields.
Proof.
  induction fields as [|[k0 v0] fields IH]; simpl.
  - done.
  - destruct (decide (k0 = k')) as [->|Hk0]; simpl.
    + by destruct (decide (k' = k)).
    + rewrite IH. destruct (decide (k0 = k)) as [->|]; [|done].
      by destruct (decide (k' = k)); [congruence|].
Qed.

Lemma dict_get_snoc k k' v fields :
  dict_get k (fields ++ [(k', v)])
  = match dict_get k fields with
    | Some w => Some w
    | None => if decide (k' = k) then Some v else None
    end.
Proof.
  induction fields as [|[k0 v0] fields IH]; simpl; [done|].
  by destruct (decide (k0 = k)).
Qed.

Lemma dict_set_snoc k v w fields :
  dict_get k fields = None →
  dict_set k v (fields ++ [(k, w)]) = fields ++ [(k, v)].
Proof.
  induction fields as [|[k0 v0] fields IH]; simpl.
  - intros _. by rewrite decide_True.
  - destruct (decide (k0 = k)); [done|]. intros H. by rewrite IH.
Qed.

(** [dict_set] keeps the keys and their order when the key is there. *)
Lemma dict_set_keys k v fields :
  is_Some (dict_get k fields) → (dict_set k v fields).*1 = fields.*1.
Proof.
  induction fields as [|[k0 v0] fields IH]; simpl; [by intros []|].
  destruct (decide (k0 = k)) as [->|]; [done|]. intros H.
  rewrite fmap_cons. f_equal. by apply IH.
Qed.

(** ** The history store *)

(** [write_json_report] on a path that holds a file. *)
Lemma write_json_report_existing p payload st c :
  Path.name p ≠ "" → Fs.stat (fs st) p = Some (File c) →
  write_json_report p payload st
  = match c with
    | Binary => (Raise (Exn UnicodeDecodeError "invalid start byte"), st)
    | Utf8 t =>
        match setdefault_append (history_read t) "runs" payload with
        | Ok existing' =>
            match Fs.write (fs st) p (Utf8 (JsonText existing')) with
            | Ok n' => (Ok (), set_fs n' st)
            | Raise exc => (Raise exc, st)
            end
        | Raise exc => (Raise exc, st)
        end
    end.
Proof.
  intros Hname Hstat. unfold write_json_report.
  assert (mkdir_parents (Path.parent p) st = (Ok (), st)) as Hmk.
  { unfold mkdir_parents.
    rewrite mkdir_parents_dir by by eapply stat_parent_dir.
    by rewrite set_fs_id. }
  erewrite bind_ok by exact Hmk. unfold path_exists. rewrite bind_look.
  assert (Fs.exists_ (fs st) p = true) as ->.
  { unfold Fs.exists_. apply bool_decide_eq_true. by rewrite Hstat. }
  unfold mbind at 1, M_bind, try_except, mbind, M_bind, read_text, Fs.read_text.
  rewrite Hstat. destruct c as [t|]; [|done].
  unfold lift, write_file. destruct t as [v| |]; simpl; [|done..].
  by destruct (setdefault_append _ _ _).
Qed.

(** [write_json_report] when nothing is at the path. *)
Lemma write_json_report_fresh p payload st :
  Path.name p ≠ "" → no_store (fs st) p →
  ∃ n', write_json_report p payload st = (Ok (), set_fs n' st)
    ∧ Fs.stat n' p
      = Some (File (Utf8 (JsonText (JObj [("runs", JArr [payload])])))).
Proof.
  intros Hname [Habsent Hmk]. unfold write_json_report.
  destruct (Fs.mkdir_parents (fs st) (Path.parent p)) as [n1|] eqn:Hn1;
    [|done].
  assert (Fs.stat n1 p = None) as Hstat1.
  { rewrite (parent_name p Hname), (mkdir_parents_child _ _ _ _ Hn1).
    rewrite <-(parent_name p Hname). unfold Fs.exists_ in Habsent.
    apply bool_decide_eq_false in Habsent.
    by destruct (Fs.stat (fs st) p); [destruct Habsent|]. }
  destruct (write_ok n1 (Path.parent p) (Path.name p)
              (Utf8 (JsonText (JObj [("runs", JArr [payload])]))))
    as [n' Hn'].
  { by eapply mkdir_parents_is_dir. }
  { unfold Fs.is_dir. by rewrite <-(parent_name p Hname), Hstat1. }
  rewrite <-(parent_name p Hname) in Hn'.
  exists n'. split; [|by eapply write_stat].
  erewrite bind_ok by (unfold mkdir_parents; by rewrite Hn1).
  unfold path_exists. rewrite bind_look. simpl fs.
  assert (Fs.exists_ n1 p = false) as ->.
  { unfold Fs.exists_. apply bool_decide_eq_false. rewrite Hstat1. by intros []. }
  unfold mbind, M_bind, mret, M_ret, lift, write_file, json_dumps. simpl.
  by rewrite Hn'.
Qed.

Lemma set_fs_set_fs n n' st : set_fs n' (set_fs n st) = set_fs n' st.
Proof. done. Qed.

Lemma stored_runs_inv n p runs :
  stored_runs n p = Some runs →
  ∃ fields, Fs.stat n p = Some (File (Utf8 (JsonText (JObj fields))))
    ∧ dict_get "runs" fields = Some (JArr runs).
Proof.
  unfold stored_runs. intros H. repeat case_match; try done.
  injection H as <-. eauto.
Qed.

Lemma write_json_report_append p payload st runs :
  Path.name p ≠ "" → stored_runs (fs st) p = Some runs →
  ∃ n', write_json_report p payload st = (Ok (), set_fs n' st)
    ∧ stored_runs n' p = Some (runs ++ [payload]).
Proof.
  intros Hname (fields & Hstat & Hruns)%stored_runs_inv.
  rewrite (write_json_report_existing _ _ _ _ Hname Hstat). simpl.
  rewrite Hruns.
  destruct (write_existing (fs st) p _
              (Utf8 (JsonText (JObj (dict_set "runs" (JArr (runs ++ [payload]))
                                       fields)))) Hname Hstat) as [n' Hn'].
  rewrite Hn'. exists n'. split; [done|].
  unfold stored_runs. rewrite (write_stat _ _ _ _ Hn'), dict_get_set.
  by rewrite decide_True.
Qed.

Lemma write_reports_append p payloads st runs :
  Path.name p ≠ "" → stored_runs (fs st) p = Some runs →
  ∃ n', write_reports p payloads st = (Ok (), set_fs n' st)
    ∧ stored_runs n' p = Some (runs ++ payloads).
Proof.
  intros Hname. revert st runs.
  induction payloads as [|payload rest IH]; intros st runs Hruns.
  - exists (fs st). by rewrite set_fs_id, app_nil_r.
  - destruct (write_json_report_append p payload st runs Hname Hruns)
      as (n1 & Hw & Hruns1).
    destruct (IH (set_fs n1 st) _ Hruns1) as (n' & Hrest & Hruns').
    exists n'. split.
    + simpl. erewrite bind_ok by exact Hw. by rewrite Hrest.
    + by rewrite <-(assoc_L (++)) in Hruns'.
Qed.

(** C9: a history that holds the runs [runs] holds, after
    [write_json_report], those runs as they were and in their order,
    followed by the new record; nothing else of the state changes.  So a
    store that starts out missing holds, after one call per run, exactly
    the records of these runs in the order of the calls, and a store that
    holds [runs] holds [runs] followed by them. *)
Theorem history_append_only (p : path) (st : State) :
  Path.name p ≠ "" →
  (∀ runs payload, stored_runs (fs st) p = Some runs →
     ∃ n', write_json_report p payload st = (Ok (), set_fs n' st)
       ∧ stored_runs n' p = Some (runs ++ [payload]))
  ∧ (∀ runs payloads, stored_runs (fs st) p = Some runs →
       ∃ n', write_reports p payloads st = (Ok (), set_fs n' st)
         ∧ stored_runs n' p = Some (runs ++ payloads))
  ∧ (∀ payload payloads, no_store (fs st) p →
       ∃ n', write_reports p (payload :: payloads) st = (Ok (), set_fs n' st)
         ∧ stored_runs n' p = Some (payload :: payloads)).
Proof.
  intros Hname. split; [|split].
  - intros runs payload. by apply write_json_report_append.
  - intros runs payloads. by apply write_reports_append.
  - intros payload payloads Hfresh.
    destruct (write_json_report_fresh p payload st Hname Hfresh)
      as (n1 & Hw & Hstat1).
    destruct (write_reports_append p payloads (set_fs n1 st) [payload] Hname)
      as (n' & Hrest & Hruns').
    { unfold stored_runs. simpl. by rewrite Hstat1. }
    exists n'. split; [|done].
    simpl. erewrite bind_ok by exact Hw. by rewrite Hrest.
Qed.

(** C9 at work: a history with one run gets a second one. *)
Lemma history_append_only_witness :
  Path.name Sample.report ≠ ""
  ∧ stored_runs (fs (Sample.with_report Sample.one_run)) Sample.report
    = Some [JStr "first"]
  ∧ ∃ n', write_json_report Sample.report (JStr "second")
            (Sample.with_report Sample.one_run)
          = (Ok (), set_fs n' (Sample.with_report Sample.one_run))
      ∧ stored_runs n' Sample.report = Some [JStr "first"; JStr "second"].
Proof.
  split; [by vm_compute|]. split; [by vm_compute|].
  refine (proj1 (history_append_only Sample.report
                   (Sample.with_report Sample.one_run) _)
            [JStr "first"] (JStr "second") _); by vm_compute.
Defined.

(** C10: when the history file holds a JSON object, the file after
    [write_json_report] holds an object with the same keys in the same
    order, ["runs"] added at the end if it was missing, and with every
    value other than that of ["runs"] as it was; and when ["runs"] was
    missing the call succeeds and ["runs"] holds just the new record. *)
Theorem other_keys_preserved (p : path) (payload : json) (st : State)
    (fields : list (string * json)) :
  Path.name p ≠ "" →
  Fs.stat (fs st) p = Some (File (Utf8 (JsonText (JObj fields)))) →
  ∃ r st' fields',
    write_json_report p payload st = (r, st')
    ∧ Fs.stat (fs st') p = Some (File (Utf8 (JsonText (JObj fields'))))
    ∧ (∀ k, k ≠ "runs" → dict_get k fields' = dict_get k fields)
    ∧ fields'.*1 = fields.*1 ++ match dict_get "runs" fields with
                                 | Some _ => []
                                 | None => ["runs"]
                                 end
    ∧ (dict_get "runs" fields = None →
       r = Ok () ∧ fields' = fields ++ [("runs", JArr [payload])]).
Proof.
  intros Hname Hstat.
  rewrite (write_json_report_existing _ _ _ _ Hname Hstat). simpl.
  destruct (dict_get "runs" fields) as [runs|] eqn:Hruns.
  - assert (∀ exc, ∃ r st' fields',
      (Raise exc, st) = (r, st')
      ∧ Fs.stat (fs st') p = Some (File (Utf8 (JsonText (JObj fields'))))
      ∧ (∀ k, k ≠ "runs" → dict_get k fields' = dict_get k fields)
      ∧ fields'.*1 = fields.*1 ++ []
      ∧ (Some runs = None →
         r = Ok () ∧ fields' = fields ++ [("runs", JArr [payload])]))
      as Hraise.
    { intros exc. exists (Raise exc), st, fields.
      by rewrite app_nil_r. }
    destruct runs as [| | | | |items|]; try apply Hraise.
    destruct (write_existing (fs st) p _
                (Utf8 (JsonText (JObj (dict_set "runs"
                                         (JArr (items ++ [payload])) fields))))
                Hname Hstat) as [n' Hn'].
    rewrite Hn'. eexists (Ok ()), _, _. split; [done|].
    split; [by eapply write_stat|]. split; [|split; [|done]].
    + intros k Hk. rewrite dict_get_set. by rewrite decide_False.
    + rewrite app_nil_r. apply dict_set_keys. by rewrite Hruns.
  - rewrite dict_set_snoc by done.
    destruct (write_existing (fs st) p _
                (Utf8 (JsonText (JObj (fields ++ [("runs", JArr [payload])]))))
                Hname Hstat) as [n' Hn'].
    simpl app. rewrite Hn'. eexists (Ok ()), _, _. split; [done|].
    split; [by eapply write_stat|]. split; [|split; [|done]].
    + intros k Hk. rewrite dict_get_snoc. rewrite decide_False by done.
      by destruct (dict_get k fields).
    + by rewrite fmap_app.
Qed.

(** C10 at work: a history that has a ["version"] and no ["runs"]. *)
Lemma other_keys_preserved_witness :
  ∃ r st' fields',
    write_json_report Sample.report (JStr "first")
      (Sample.with_report Sample.no_runs) = (r, st')
    ∧ Fs.stat (fs st') Sample.report
      = Some (File (Utf8 (JsonText (JObj fields'))))
    ∧ dict_get "version" fields' = Some (JInt 1)
    ∧ r = Ok ()
    ∧ fields' = [("version", JInt 1); ("runs", JArr [JStr "first"])].
Proof.
  destruct (other_keys_preserved Sample.report (JStr "first")
              (Sample.with_report Sample.no_runs) [("version", JInt 1)])
    as (r & st' & fields' & Hw & Hstat & Hkeys & _ & Hnew);
    [by vm_compute..|].
  exists r, st', fields'. split; [done|]. split; [done|].
  split; [by rewrite Hkeys|]. by apply Hnew.
Defined.

(** ** The orchestrator *)

Lemma is_dir_exists n p : Fs.is_dir n p = true → Fs.exists_ n p = true.
Proof.
  unfold Fs.is_dir, Fs.exists_. intros H. apply bool_decide_eq_true.
  by destruct (Fs.stat n p).
Qed.

Lemma main_halts e args st :
  precondition_failure e args st →
  ∃ msg, main e args st
         = (Ok 1, {| fs := fs st; console := console st ++ [msg];
                     invoked := invoked st |}).
Proof.
  intros Hfail.
  unfold main, ensure_ffmpeg, path_exists, path_is_dir, look, print.
  unfold mbind, M_bind, mret, M_ret.
  destruct (Fs.is_dir (fs st) (Path.parse (input_dir args))) eqn:Hdir.
  - rewrite (is_dir_exists _ _ Hdir). cbn [negb orb].
    destruct Hfail as [Hex|[?|Hfind]]; [|congruence|].
    { by rewrite (is_dir_exists _ _ Hdir) in Hex. }
    rewrite Hfind. simpl. eauto.
  - rewrite orb_true_r. eauto.
Qed.

Lemma main_runs e args st ffmpeg_bin :
  Fs.is_dir (fs st) (Path.parse (input_dir args)) = true →
  find_ffmpeg e (fs st) = Some ffmpeg_bin →
  main e args st = run e args ffmpeg_bin st.
Proof.
  intros Hdir Hfind.
  assert (Str.truthy ffmpeg_bin = true) as Htruthy.
  { apply truthy_iff. by eapply find_ffmpeg_truthy. }
  unfold main, run, ensure_ffmpeg, path_exists, path_is_dir, look, print.
  unfold mbind, M_bind, mret, M_ret.
  rewrite Hdir, (is_dir_exists _ _ Hdir). cbn [negb orb].
  rewrite Hfind. cbn [truthy_opt fs]. rewrite Htruthy. cbn [truthy_opt].
  rewrite Hfind.
  destruct (convert_all _ _ _ _) as [[results|exc] st1]; [|done].
  destruct (write_json_report _ _ _) as [[[]|exc] st2]; [|done].
  destruct (write_csv_report _ _ _) as [[[]|exc] st3]; [|done].
  unfold summary. simpl. by rewrite <-!(assoc_L (++)).
Qed.

Lemma not_precondition_failure e args st :
  ¬ precondition_failure e args st →
  Fs.is_dir (fs st) (Path.parse (input_dir args)) = true
  ∧ ∃ ffmpeg_bin, find_ffmpeg e (fs st) = Some ffmpeg_bin.
Proof.
  unfold precondition_failure. intros Hok.
  destruct (Fs.is_dir _ _); [|by destruct Hok; auto].
  destruct (find_ffmpeg e (fs st)); [eauto|by destruct Hok; auto].
Qed.

Lemma run_inv e args ffmpeg_bin st code st' :
  run e args ffmpeg_bin st = (Ok code, st') →
  ∃ results st1 st2 st3,
    convert_all e ffmpeg_bin (discover (fs st) (Path.parse (input_dir args)))
      st = (Ok results, st1)
    ∧ write_json_report (Path.parse (report_json args))
        (run_payload (utcnow e) (Path.parse (input_dir args)) results) st1
      = (Ok (), st2)
    ∧ write_csv_report (Path.parse (report_csv args)) results st2
      = (Ok (), st3)
    ∧ code = (if count_status "failed" results =? 0 then 0 else 2)
    ∧ st' = {| fs := fs st3;
               console := console st3 ++ summary args ffmpeg_bin results;
               invoked := invoked st3 |}.
Proof.
  unfold run. intros H.
  apply bind_inv_ok in H as (results & st1 & Hloop & H).
  apply bind_inv_ok in H as ([] & st2 & Hjson & H).
  apply bind_inv_ok in H as ([] & st3 & Hcsv & H).
  injection H as <- <-. eauto 10.
Qed.

(** C5: when a precondition fails, [main] returns 1.  Otherwise the loop
    runs over what was discovered and gives its results, and [main], if it
    returns, returns 0 when none of them is [failed] and 2 when one is;
    and it does return so whenever the two reports get written. *)
Theorem exit_status_policy (e : Env) (args : Args) (st : State) :
  (precondition_failure e args st → ∃ st', main e args st = (Ok 1, st'))
  ∧ (¬ precondition_failure e args st →
     ∃ ffmpeg_bin results st1,
       find_ffmpeg e (fs st) = Some ffmpeg_bin
       ∧ convert_all e ffmpeg_bin
           (discover (fs st) (Path.parse (input_dir args))) st
         = (Ok results, st1)
       ∧ (∀ code st', main e args st = (Ok code, st') →
            count_status "failed" results = 0 ∧ code = 0
            ∨ 1 ≤ count_status "failed" results ∧ code = 2)
       ∧ (∀ st2 st3,
            write_json_report (Path.parse (report_json args))
              (run_payload (utcnow e) (Path.parse (input_dir args)) results)
              st1 = (Ok (), st2) →
            write_csv_report (Path.parse (report_csv args)) results st2
            = (Ok (), st3) →
            ∃ st', main e args st
                   = (Ok (if count_status "failed" results =? 0 then 0
                          else 2), st'))).
Proof.
  split.
  - intros Hfail. destruct (main_halts e args st Hfail) as [msg Hmain]. eauto.
  - intros (Hdir & ffmpeg_bin & Hfind)%not_precondition_failure.
    destruct (convert_all_total e ffmpeg_bin
                (discover (fs st) (Path.parse (input_dir args))) st
                (discover_targets _ _)) as (results & st1 & Hloop).
    exists ffmpeg_bin, results, st1. split; [done|]. split; [done|].
    rewrite (main_runs e args st ffmpeg_bin Hdir Hfind). split.
    + intros code st' (results' & st1' & st2 & st3 & Hloop' & _ & _ & -> & _)%run_inv.
      rewrite Hloop in Hloop'. injection Hloop' as <- <-.
      pose proof (count_status_nonneg "failed" results).
      destruct (count_status "failed" results =? 0) eqn:Hfailed.
      * apply Z.eqb_eq in Hfailed. by left.
      * apply Z.eqb_neq in Hfailed. right. split; [lia|done].
    + intros st2 st3 Hjson Hcsv. unfold run.
      erewrite bind_ok by exact Hloop. erewrite bind_ok by exact Hjson.
      erewrite bind_ok by exact Hcsv. eauto.
Qed.

(** C5 at work: the input directory is missing, and the status is 1. *)
Lemma exit_status_policy_witness :
  precondition_failure (Sample.env Sample.good_tool)
    {| input_dir := "data/missing"; report_json := "r.json";
       report_csv := "r.csv" |} Sample.start
  ∧ ∃ st', main (Sample.env Sample.good_tool)
             {| input_dir := "data/missing"; report_json := "r.json";
                report_csv := "r.csv" |} Sample.start = (Ok 1, st').
Proof.
  assert (precondition_failure (Sample.env Sample.good_tool)
            {| input_dir := "data/missing"; report_json := "r.json";
               report_csv := "r.csv" |} Sample.start) as Hfail.
  { left. by vm_compute. }
  split; [done|].
  exact (proj1 (exit_status_policy _ _ _) Hfail).
Defined.

(** C6: when [main] returns 1 a precondition had failed, and the state it
    leaves differs from the one it found by one printed line only: no
    file, no directory and no report was written, and no command was run. *)
Theorem precondition_failure_writes_nothing (e : Env) (args : Args)
    (st st' : State) :
  main e args st = (Ok 1, st') →
  precondition_failure e args st
  ∧ fs st' = fs st
  ∧ invoked st' = invoked st
  ∧ ∃ msg, console st' = console st ++ [msg].
Proof.
  intros Hmain.
  assert (Decision (precondition_failure e args st)) as [Hfail|Hok]
    by (unfold precondition_failure; apply _).
  - destruct (main_halts e args st Hfail) as [msg Hhalt].
    rewrite Hhalt in Hmain. injection Hmain as <-. eauto.
  - apply not_precondition_failure in Hok as (Hdir & ffmpeg_bin & Hfind).
    rewrite (main_runs e args st ffmpeg_bin Hdir Hfind) in Hmain.
    apply run_inv in Hmain as (results & _ & _ & _ & _ & _ & _ & Hcode & _).
    by destruct (count_status "failed" results =? 0).
Qed.

(** C6 at work: no tool is found in the sample tree without the
    override, and the tree is left as it was. *)
Lemma precondition_failure_writes_nothing_witness :
  ∃ st', main (without_override (Sample.env Sample.good_tool)) default_args
           Sample.start = (Ok 1, st')
    ∧ fs st' = Sample.tree ∧ invoked st' = [].
Proof.
  eexists. split; [by vm_compute|].
  destruct (precondition_failure_writes_nothing
              (without_override (Sample.env Sample.good_tool)) default_args
              Sample.start _ eq_refl) as (_ & Hfs & Hinv & _).
  by split.
Defined.

(** ** C2: a history that cannot be read *)

(** The part of C2 the code delivers: text that [json.loads] rejects is
    taken for an empty history, and the file is replaced by one that holds
    the new run alone. *)
Lemma unparsable_history_is_reset p payload st t :
  Path.name p ≠ "" → Fs.stat (fs st) p = Some (File (Utf8 t)) →
  is_ok (json_loads t) = false →
  ∃ n', write_json_report p payload st = (Ok (), set_fs n' st)
    ∧ Fs.stat n' p
      = Some (File (Utf8 (JsonText (JObj [("runs", JArr [payload])])))).
Proof.
  intros Hname Hstat Ht.
  rewrite (write_json_report_existing _ _ _ _ Hname Hstat).
  destruct (write_existing (fs st) p _
              (Utf8 (JsonText (JObj [("runs", JArr [payload])]))) Hname Hstat)
    as [n' Hn'].
  exists n'. split; [|by eapply write_stat].
  destruct t as [v| |]; [done| |]; simpl; by rewrite Hn'.
Qed.

(** The part it does not: only [JSONDecodeError] is caught.  Bytes that do
    not decode raise [UnicodeDecodeError] out of [write_json_report], and
    nothing is written. *)
Lemma undecodable_history_raises p payload st :
  Path.name p ≠ "" → Fs.stat (fs st) p = Some (File Binary) →
  write_json_report p payload st
  = (Raise (Exn UnicodeDecodeError "invalid start byte"), st).
Proof.
  intros Hname Hstat.
  by rewrite (write_json_report_existing _ _ _ _ Hname Hstat).
Qed.

(** And so does a history whose text is JSON but not an object that holds
    a list under ["runs"]. *)
Lemma misshapen_history_raises p payload st v :
  Path.name p ≠ "" → Fs.stat (fs st) p = Some (File (Utf8 (JsonText v))) →
  (∀ fields, v = JObj fields →
     ∃ w, dict_get "runs" fields = Some w ∧ ∀ items, w ≠ JArr items) →
  ∃ msg, write_json_report p payload st = (Raise (Exn AttributeError msg), st).
Proof.
  intros Hname Hstat Hv.
  rewrite (write_json_report_existing _ _ _ _ Hname Hstat). simpl.
  destruct v as [| | | | | |fields]; try by eexists.
  destruct (Hv fields eq_refl) as (w & Hruns & Hw).
  unfold setdefault_append. rewrite Hruns.
  destruct w; try by eexists. by destruct (Hw items).
Qed.

(** C2 fails on the code: with a history file of bytes that are not
    UTF-8, of the JSON text [[]], or of [{"runs": null}],
    [write_json_report] raises and leaves everything as it was; and a
    whole run over such a history converts its files and then ends in that
    exception, with no run recorded and no snapshot written. *)
Theorem corrupt_history_is_fatal :
  write_json_report Sample.report (JStr "new") (Sample.with_report Binary)
  = (Raise (Exn UnicodeDecodeError "invalid start byte"),
     Sample.with_report Binary)
  ∧ write_json_report Sample.report (JStr "new")
      (Sample.with_report (Utf8 (JsonText (JArr []))))
    = (Raise (Exn AttributeError "object has no attribute 'setdefault'"),
       Sample.with_report (Utf8 (JsonText (JArr []))))
  ∧ write_json_report Sample.report (JStr "new")
      (Sample.with_report (Utf8 (JsonText (JObj [("runs", JNull)]))))
    = (Raise (Exn AttributeError "object has no attribute 'append'"),
       Sample.with_report (Utf8 (JsonText (JObj [("runs", JNull)]))))
  ∧ ∃ st',
      main (Sample.env Sample.good_tool) default_args
        (Sample.with_report Binary)
      = (Raise (Exn UnicodeDecodeError "invalid start byte"), st')
      ∧ length (invoked st') = 1%nat
      ∧ Fs.stat (fs st') Sample.report = Some (File Binary)
      ∧ Fs.exists_ (fs st') (Path.parse (report_csv default_args)) = false.
Proof.
  split; [by vm_compute|]. split; [by vm_compute|]. split; [by vm_compute|].
  eexists. split; [by vm_compute|]. by vm_compute.
Qed.

(** ** The scenarios of the specification *)

(** Two sources without targets and a tool that exits with 0: both are
    converted, the status is 0, the snapshot has two rows and the history
    one run. *)
Example scenario_all_converted :
  let st := {| fs := Dir {[ "in" := Dir {[ "a.m4a" := File Binary;
                                           "b.m4a" := File Binary ]} ]};
               console := []; invoked := [] |} in
  let args := {| input_dir := "in"; report_json := "out/history.json";
                 report_csv := "out/last.csv" |} in
  let '(r, st') := main (Sample.env_which Sample.good_tool) args st in
  r = Ok 0
  ∧ Fs.read_text (fs st') ["out"; "last.csv"]
    = Ok (CsvText [["source"; "target"; "status"; "error"];
                   ["in/a.m4a"; "in/a.mp3"; "converted"; ""];
                   ["in/b.m4a"; "in/b.mp3"; "converted"; ""]])
  ∧ (length <$> stored_runs (fs st') ["out"; "history.json"]) = Some 1%nat.
Proof. by vm_compute. Qed.

(** ** Running twice *)

Lemma write_json_report_keeps p payload st r st' q :
  write_json_report p payload st = (r, st') →
  Fs.exists_ (fs st) q = true → Fs.exists_ (fs st') q = true.
Proof.
  unfold write_json_report, mkdir_parents, path_exists, look, try_except,
    read_text, lift, write_file, mbind, M_bind, mret, M_ret.
  destruct (Fs.mkdir_parents (fs st) (Path.parent p)) as [n1|] eqn:Hmk;
    [|by intros [= <- <-]].
  intros H Hq. pose proof (mkdir_parents_keeps _ _ _ _ Hmk Hq) as Hq1.
  cbn [fs set_fs] in H.
  assert (∀ existing,
    match setdefault_append existing "runs" payload with
    | Ok a =>
        match Fs.write n1 p (Utf8 (json_dumps a)) with
        | Ok n => (Ok (), set_fs n (set_fs n1 st))
        | Raise e => (Raise e, set_fs n1 st)
        end
    | Raise e => (Raise e, set_fs n1 st)
    end = (r, st') → Fs.exists_ (fs st') q = true) as Hwrite.
  { intros existing. destruct (setdefault_append _ _ _); [|by intros [= <- <-]].
    destruct (Fs.write n1 p _) eqn:Hw; intros [= <- <-]; [|done].
    by eapply write_keeps. }
  revert H.
  destruct (Fs.exists_ n1 p); cbv beta; change (fs (set_fs n1 st)) with n1;
    [|by apply Hwrite].
  destruct (Fs.read_text n1 p) as [t|exc];
    [destruct (json_loads t) as [v|exc]; [by apply Hwrite|]|];
    (destruct (bool_decide _); [by apply Hwrite|by intros [= <- <-]]).
Qed.

Lemma write_csv_report_keeps p results st r st' q :
  write_csv_report p results st = (r, st') →
  Fs.exists_ (fs st) q = true → Fs.exists_ (fs st') q = true.
Proof.
  unfold write_csv_report, mkdir_parents, write_file, mbind, M_bind.
  destruct (Fs.mkdir_parents (fs st) (Path.parent p)) as [n1|] eqn:Hmk;
    [|by intros [= <- <-]].
  intros H Hq. pose proof (mkdir_parents_keeps _ _ _ _ Hmk Hq) as Hq1.
  cbn [fs set_fs] in H.
  destruct (Fs.write n1 p _) eqn:Hw; injection H as <- <-; [|done].
  by eapply write_keeps.
Qed.

Section rerun.
Variable e : Env.

(** What is assumed of the tool: it removes nothing, and when it exits
    with 0 the output it was asked for is there. *)
Hypothesis tool_keeps : ∀ cmd n p,
  Fs.exists_ n p = true → Fs.exists_ (spawn e cmd n).2 p = true.
Hypothesis tool_writes : ∀ ffmpeg_bin src dst n completed,
  (spawn e (ffmpeg_cmd ffmpeg_bin src dst) n).1 = Ok completed →
  returncode completed = 0 →
  Fs.exists_ (spawn e (ffmpeg_cmd ffmpeg_bin src dst) n).2 dst = true.

Lemma convert_file_keeps src dst ffmpeg_bin st r st' :
  convert_file e src dst ffmpeg_bin st = (Ok r, st') →
  (∀ p, Fs.exists_ (fs st) p = true → Fs.exists_ (fs st') p = true)
  ∧ (status r ≠ "failed" → Fs.exists_ (fs st') dst = true).
Proof.
  destruct (Fs.exists_ (fs st) dst) eqn:Hdst.
  - rewrite convert_file_skip by done. by intros [= <- <-].
  - rewrite convert_file_run by done. intros [= <- <-]. split.
    + intros p Hp. by apply tool_keeps.
    + simpl. pose proof (tool_writes ffmpeg_bin src dst (fs st)) as Hw.
      destruct (spawn e _ (fs st)) as [[completed|exc] n]; simpl in *;
        [|done].
      destruct (returncode completed =? 0) eqn:Hcode; [|done].
      intros _. apply (Hw completed); [done|by apply Z.eqb_eq].
Qed.

Lemma convert_all_keeps ffmpeg_bin sources st results st' :
  convert_all e ffmpeg_bin sources st = (Ok results, st') →
  (∀ p, Fs.exists_ (fs st) p = true → Fs.exists_ (fs st') p = true)
  ∧ Forall2 (λ src r, status r ≠ "failed" →
               ∃ dst, Path.with_suffix src ".mp3" = Ok dst
                 ∧ Fs.exists_ (fs st') dst = true) sources results.
Proof.
  revert st results. induction sources as [|src rest IH]; intros st results.
  - intros [= <- <-]. split; [done|constructor].
  - simpl. intros H.
    apply bind_inv_ok in H as (dst & st0 & Hdst & H).
    injection Hdst as Hdst <-.
    apply bind_inv_ok in H as (r & st1 & Hr & H).
    apply bind_inv_ok in H as (rs & st2 & Hrs & H).
    injection H as <- <-.
    apply convert_file_keeps in Hr as [Hkeep1 Hdone].
    apply IH in Hrs as [Hkeep2 Hrest].
    split; [by auto|]. constructor; [|done].
    intros Hr. exists dst. split; [done|]. auto.
Qed.

Lemma convert_all_skips_present ffmpeg_bin sources st results st' :
  convert_all e ffmpeg_bin sources st = (Ok results, st') →
  Forall2 (λ src r,
             (∃ dst, Path.with_suffix src ".mp3" = Ok dst
                ∧ Fs.exists_ (fs st) dst = true) →
             status r = "skipped") sources results.
Proof.
  revert st results. induction sources as [|src rest IH]; intros st results.
  - intros [= <- <-]. constructor.
  - simpl. intros H.
    apply bind_inv_ok in H as (dst & st0 & Hdst & H).
    injection Hdst as Hdst <-.
    apply bind_inv_ok in H as (r & st1 & Hr & H).
    apply bind_inv_ok in H as (rs & st2 & Hrs & H).
    injection H as <- <-. constructor.
    + intros (dst' & Hdst' & Hex). rewrite Hdst in Hdst'.
      injection Hdst' as <-. rewrite convert_file_skip in Hr by done.
      by injection Hr as <- _.
    + apply convert_file_keeps in Hr as [Hkeep _].
      eapply Forall2_impl; [by eapply IH|]. simpl.
      intros src' r' Hskip (dst' & ? & ?). apply Hskip. eauto.
Qed.

(** A source that a first pass converted or skipped is skipped by a
    later pass, as long as nothing was removed in between. *)
Theorem rerun_skips_done ffmpeg_bin ffmpeg_bin' sources sources'
    st st1 st2 st3 results results' i j src r r' :
  convert_all e ffmpeg_bin sources st = (Ok results, st1) →
  (∀ p, Fs.exists_ (fs st1) p = true → Fs.exists_ (fs st2) p = true) →
  convert_all e ffmpeg_bin' sources' st2 = (Ok results', st3) →
  sources !! i = Some src → results !! i = Some r →
  sources' !! j = Some src → results' !! j = Some r' →
  status r ≠ "failed" → status r' = "skipped".
Proof.
  intros [_ Hfirst]%convert_all_keeps Hbetween
    Hsecond%convert_all_skips_present Hi Hir Hj Hjr Hr.
  destruct (Forall2_lookup_lr _ _ _ _ _ _ Hfirst Hi Hir Hr)
    as (dst & Hdst & Hex).
  apply (Forall2_lookup_lr _ _ _ _ _ _ Hsecond Hj Hjr). eauto.
Qed.

(** Two runs of the script, the second on what the first left: what
    the first converted or skipped, the second skips. *)
Theorem second_run_skips_done args ffmpeg_bin ffmpeg_bin' st code st1
    code' st2 :
  run e args ffmpeg_bin st = (Ok code, st1) →
  run e args ffmpeg_bin' st1 = (Ok code', st2) →
  ∃ results results' sa sb,
    convert_all e ffmpeg_bin
      (discover (fs st) (Path.parse (input_dir args))) st
    = (Ok results, sa)
    ∧ convert_all e ffmpeg_bin'
        (discover (fs st1) (Path.parse (input_dir args))) st1
      = (Ok results', sb)
    ∧ ∀ i j src r r',
        discover (fs st) (Path.parse (input_dir args)) !! i = Some src →
        results !! i = Some r →
        discover (fs st1) (Path.parse (input_dir args)) !! j = Some src →
        results' !! j = Some r' →
        status r ≠ "failed" → status r' = "skipped".
Proof.
  intros (results & sa & s2 & s3 & Hloop & Hjson & Hcsv & _ & ->)%run_inv
         (results' & sb & _ & _ & Hloop' & _)%run_inv.
  exists results, results', sa, sb. split; [done|]. split; [done|].
  intros i j src r r'. eapply rerun_skips_done; [done| |done].
  intros p Hp. simpl. eapply write_csv_report_keeps; [done|].
  by eapply write_json_report_keeps.
Qed.
End rerun.

(** The two assumptions of the section hold of a tool that changes
    nothing and never exits with 0. *)
Lemma bad_tool_keeps_and_writes :
  (∀ cmd n p, Fs.exists_ n p = true →
     Fs.exists_ (spawn (Sample.env Sample.bad_tool) cmd n).2 p = true)
  ∧ (∀ ffmpeg_bin src dst n completed,
       (spawn (Sample.env Sample.bad_tool) (ffmpeg_cmd ffmpeg_bin src dst) n).1
       = Ok completed →
       returncode completed = 0 →
       Fs.exists_
         (spawn (Sample.env Sample.bad_tool) (ffmpeg_cmd ffmpeg_bin src dst)
            n).2 dst = true).
Proof. split; [done|]. by intros ????? [= <-]. Qed.

(** The second of two runs over the sample tree: the first converts
    [b.m4a] and skips [a.m4a]; the second skips both and runs nothing. *)
Example scenario_rerun :
  let e := Sample.env Sample.good_tool in
  let '(r1, st1) := main e default_args Sample.start in
  let '(r2, st2) := main e default_args st1 in
  r1 = Ok 0 ∧ r2 = Ok 0
  ∧ length (invoked st1) = 1%nat ∧ invoked st2 = invoked st1
  ∧ Fs.read_text (fs st2) (Path.parse (report_csv default_args))
    = Ok (CsvText
            [["source"; "target"; "status"; "error"];
             ["data/train/a.m4a"; "data/train/a.mp3"; "skipped";
              "target_exists"];
             ["data/train/b.m4a"; "data/train/b.mp3"; "skipped";
              "target_exists"]])
  ∧ (length <$> stored_runs (fs st2) Sample.report) = Some 2%nat.
Proof. by vm_compute. Qed.

(** * Further properties *)

(** ** What one conversion leaves behind *)

Lemma convert_file_step e src dst ffmpeg_bin st r st' :
  convert_file e src dst ffmpeg_bin st = (Ok r, st') →
  console st' = console st
  ∧ source r = Path.str src ∧ target r = Path.str dst
  ∧ (status r = "skipped" ∧ invoked st' = invoked st
     ∨ status r ≠ "skipped" ∧ known_status r
       ∧ invoked st' = invoked st ++ [cmd_of ffmpeg_bin r]).
Proof.
  destruct (Fs.exists_ (fs st) dst) eqn:Hdst.
  - rewrite convert_file_skip by done. intros [= <- <-].
    split_and!; [done..|]. by left.
  - rewrite convert_file_run by done. intros [= <- <-].
    unfold known_status, cmd_of, after_spawn, ffmpeg_cmd.
    destruct (spawn e _ (fs st)) as [[completed|exc] n]; simpl.
    + destruct (returncode completed =? 0); simpl;
        (split_and!; [done..|]); right; split_and!; auto; done.
    + split_and!; [done..|]. right. split_and!; auto; done.
Qed.

Lemma attempted_length results :
  Forall known_status results →
  Z.of_nat (length (attempted results))
  = count_status "converted" results + count_status "failed" results.
Proof.
  unfold attempted. induction 1 as [|r results Hr _ IH]; [done|].
  rewrite filter_cons, !count_status_cons.
  destruct Hr as [Hr|[Hr|Hr]]; rewrite Hr; simpl; lia.
Qed.

Lemma convert_all_logs e ffmpeg_bin sources st results st' :
  convert_all e ffmpeg_bin sources st = (Ok results, st') →
  console st' = console st
  ∧ invoked st' = invoked st ++ map (cmd_of ffmpeg_bin) (attempted results).
Proof.
  revert st results.
  induction sources as [|src rest IH]; intros st results.
  - intros [= <- <-]. by rewrite app_nil_r.
  - simpl. intros H.
    apply bind_inv_ok in H as (dst & st0 & Hdst & H).
    injection Hdst as Hdst <-.
    apply bind_inv_ok in H as (r & st1 & Hr & H).
    apply bind_inv_ok in H as (rs & st2 & Hrs & H).
    injection H as <- <-.
    apply convert_file_step in Hr as (Hc & _ & _ & Hr).
    apply IH in Hrs as [Hc' Hi']. split; [congruence|].
    rewrite Hi'. unfold attempted. rewrite filter_cons.
    destruct Hr as [[Hs ->]|(Hs & _ & ->)].
    + by rewrite decide_False by (by rewrite Hs; intros []).
    + rewrite decide_True by done. by rewrite <-(assoc_L (++)).
Qed.

(** X1: the tool is run once for each source that is not skipped, and never
    again: after the loop the commands handed to [subprocess.run] are those
    there were, followed by one command per result that is [converted] or
    [failed], in the order of the results, each with the fixed flags around
    the source and target the result records; their number is
    [converted + failed]; and the loop prints nothing. *)
Theorem one_tool_call_per_attempt (e : Env) (ffmpeg_bin : string)
    (sources : list path) (st st' : State)
    (results : list ConversionResult) :
  convert_all e ffmpeg_bin sources st = (Ok results, st') →
  console st' = console st
  ∧ invoked st' = invoked st ++ map (cmd_of ffmpeg_bin) (attempted results)
  ∧ Z.of_nat (length (invoked st'))
    = Z.of_nat (length (invoked st))
      + count_status "converted" results + count_status "failed" results.
Proof.
  intros Hrun.
  destruct (convert_all_logs _ _ _ _ _ _ Hrun) as [Hconsole Hinvoked].
  split; [done|]. split; [done|].
  rewrite Hinvoked, length_app, length_map, Nat2Z.inj_add.
  rewrite attempted_length; [lia|].
  apply convert_all_inv in Hrun. clear -Hrun.
  induction Hrun as [|???? (?&?&?&?&?) _ IH]; by constructor.
Qed.

(** X1 at work: over the sample tree one source is skipped and one is
    converted, so the tool is run once. *)
Lemma one_tool_call_per_attempt_witness :
  ∃ results st',
    convert_all (Sample.env Sample.good_tool) "bin/ffmpeg"
      [Sample.a_m4a; Sample.b_m4a] Sample.start = (Ok results, st')
    ∧ invoked st'
      = [["bin/ffmpeg"; "-y"; "-i"; "data/train/b.m4a"; "-vn"; "-codec:a";
          "libmp3lame"; "-q:a"; "2"; "data/train/b.mp3"]].
Proof.
  assert (∃ results st',
            convert_all (Sample.env Sample.good_tool) "bin/ffmpeg"
              [Sample.a_m4a; Sample.b_m4a] Sample.start = (Ok results, st')
            ∧ map (cmd_of "bin/ffmpeg") (attempted results)
              = [["bin/ffmpeg"; "-y"; "-i"; "data/train/b.m4a"; "-vn";
                  "-codec:a"; "libmp3lame"; "-q:a"; "2"; "data/train/b.mp3"]])
    as (results & st' & Hrun & Hcmds).
  { eexists _, _. split; by vm_compute. }
  exists results, st'. split; [done|].
  destruct (one_tool_call_per_attempt _ _ _ _ _ _ Hrun) as (_ & -> & _).
  by rewrite Hcmds.
Defined.

(** X2: [converted] is reported only when the tool was run and exited with 0,
    and [skipped] only when the target was there; a [converted] result has
    no error text, a [skipped] one has [target_exists] and left the state
    alone, and a result that is [failed] because the tool exited, rather
    than could not be started, has an error text that is not empty. *)
Theorem status_tells_what_happened (e : Env) (src dst : path)
    (ffmpeg_bin : string) (st st' : State) (r : ConversionResult) :
  convert_file e src dst ffmpeg_bin st = (Ok r, st') →
  let outcome := (spawn e (ffmpeg_cmd ffmpeg_bin src dst) (fs st)).1 in
  (status r = "skipped" ↔ Fs.exists_ (fs st) dst = true)
  ∧ (status r = "converted"
     ↔ Fs.exists_ (fs st) dst = false
       ∧ ∃ completed, outcome = Ok completed ∧ returncode completed = 0)
  ∧ (status r = "skipped" → error r = "target_exists" ∧ st' = st)
  ∧ (status r = "converted" → error r = "")
  ∧ (status r = "failed" → is_ok outcome = true → error r ≠ "").
Proof.
  destruct (Fs.exists_ (fs st) dst) eqn:Hdst.
  - rewrite convert_file_skip by done. intros [= <- <-]. simpl.
    split_and!; try done. split; [done|]. by intros [? _].
  - rewrite convert_file_run by done. intros [= <- <-]. simpl.
    destruct (spawn e _ (fs st)) as [[completed|exc] n]; simpl.
    + destruct (returncode completed =? 0) eqn:Hcode; simpl.
      * apply Z.eqb_eq in Hcode. split_and!; try done. split; eauto.
      * apply Z.eqb_neq in Hcode. split_and!; try done.
        -- split; [done|]. by intros (_ & ? & [= <-] & ?).
        -- intros _ _. destruct (Str.truthy _) eqn:Htrim; [|done].
           by apply truthy_iff.
    + split_and!; try done. split; [done|]. by intros (_ & ? & ? & _).
Qed.

(** X2 at work: [b.mp3] is missing and the tool exits with 0. *)
Lemma status_tells_what_happened_witness :
  ∃ r st',
    convert_file (Sample.env Sample.good_tool) Sample.b_m4a Sample.b_mp3
      "bin/ffmpeg" Sample.start = (Ok r, st')
    ∧ status r = "converted" ∧ error r = "".
Proof.
  assert (∃ r st',
            convert_file (Sample.env Sample.good_tool) Sample.b_m4a
              Sample.b_mp3 "bin/ffmpeg" Sample.start = (Ok r, st')
            ∧ status r = "converted") as (r & st' & Hr & Hstatus).
  { eexists _, _. split; by vm_compute. }
  exists r, st'. split; [done|]. split; [done|].
  by apply (status_tells_what_happened _ _ _ _ _ _ _ Hr).
Defined.

(** ** The reports *)

Lemma write_dir n p c :
  Fs.is_dir n p = true →
  ∃ msg, Fs.write n p c = Raise (Exn IsADirectoryError msg).
Proof.
  unfold Fs.is_dir. revert n. induction p as [|part p IH]; intros n.
  - simpl. destruct n; [done|]. eauto.
  - simpl. destruct n as [c0|entries]; [done|].
    destruct (entries !! part) as [child|]; [|done]. simpl.
    intros Hdir. destruct (IH child Hdir) as [msg ->]. simpl. eauto.
Qed.

(** Writing a file leaves every other file as it is. *)
Lemma write_other n p c n' q x :
  Fs.write n p c = Ok n' → q ≠ p →
  Fs.stat n q = Some (File x) → Fs.stat n' q = Some (File x).
Proof.
  revert n n' q. induction p as [|part p IH]; intros n n' q.
  - simpl. destruct n as [c0|]; [|done]. intros [= <-] Hq.
    by destruct q.
  - simpl. destruct n as [c0|entries]; [done|].
    destruct q as [|b q]; [done|]. simpl.
    destruct (entries !! part) as [child|] eqn:Hchild.
    + destruct (Fs.write child p c) as [child'|] eqn:Hw; [|done].
      simpl. intros [= <-] Hq. destruct (decide (part = b)) as [<-|Hne].
      * rewrite Hchild, lookup_insert_eq. simpl. eapply IH; [done|].
        congruence.
      * by rewrite lookup_insert_ne.
    + destruct p; [|done]. intros [= <-] Hq.
      destruct (decide (part = b)) as [<-|Hne].
      * by rewrite Hchild.
      * by rewrite lookup_insert_ne.
Qed.

(** So does making directories. *)
Lemma mkdir_parents_other n p n' q x :
  Fs.mkdir_parents n p = Ok n' →
  Fs.stat n q = Some (File x) → Fs.stat n' q = Some (File x).
Proof.
  revert n n' q. induction p as [|part p IH]; intros n n' q.
  - simpl. destruct n; [done|]. by intros [= <-].
  - simpl. destruct n as [c0|entries]; [done|].
    destruct (Fs.mkdir_parents _ p) as [child'|] eqn:Hchild; [|done].
    simpl. intros [= <-]. destruct q as [|b q]; [done|]. simpl.
    destruct (decide (part = b)) as [<-|Hne].
    + rewrite lookup_insert_eq.
      destruct (entries !! part) as [child|]; [|done]. simpl. by eapply IH.
    + by rewrite lookup_insert_ne.
Qed.

Lemma setdefault_append_ok existing key item v :
  setdefault_append existing key item = Ok v →
  ∃ fields runs, v = JObj fields
    ∧ dict_get key fields = Some (JArr (runs ++ [item])).
Proof.
  unfold setdefault_append. destruct existing as [| | | | | |fields]; try done.
  destruct (dict_get key fields) as [w|] eqn:Hkey.
  - destruct w as [| | | | |items|]; try done. intros [= <-].
    eexists _, items. split; [done|]. rewrite dict_get_set.
    by rewrite decide_True.
  - intros [= <-]. eexists _, []. split; [done|]. rewrite dict_get_set.
    by rewrite decide_True.
Qed.

(** What the two writers leave when they return. *)
Lemma write_json_report_post p payload st st' :
  write_json_report p payload st = (Ok (), st') →
  console st' = console st ∧ invoked st' = invoked st
  ∧ ∃ fields runs,
      Fs.stat (fs st') p = Some (File (Utf8 (JsonText (JObj fields))))
      ∧ dict_get "runs" fields = Some (JArr (runs ++ [payload])).
Proof.
  unfold write_json_report, mkdir_parents, path_exists, look, try_except,
    read_text, lift, write_file, mbind, M_bind, mret, M_ret.
  destruct (Fs.mkdir_parents (fs st) (Path.parent p)) as [n1|]; [|done].
  assert (∀ existing,
    match setdefault_append existing "runs" payload with
    | Ok a =>
        match Fs.write n1 p (Utf8 (json_dumps a)) with
        | Ok n => (Ok (), set_fs n (set_fs n1 st))
        | Raise e => (Raise e, set_fs n1 st)
        end
    | Raise e => (Raise e, set_fs n1 st)
    end = (Ok (), st') →
    console st' = console st ∧ invoked st' = invoked st
    ∧ ∃ fields runs,
        Fs.stat (fs st') p = Some (File (Utf8 (JsonText (JObj fields))))
        ∧ dict_get "runs" fields = Some (JArr (runs ++ [payload])))
    as Hwrite.
  { intros existing.
    destruct (setdefault_append _ _ _) as [v|] eqn:Hv; [|done].
    destruct (Fs.write n1 p _) as [n2|] eqn:Hw; [|done]. intros [= <-].
    split; [done|]. split; [done|].
    apply setdefault_append_ok in Hv as (fields & runs & -> & Hruns).
    exists fields, runs. split; [|done]. by eapply write_stat. }
  cbv beta. change (fs (set_fs n1 st)) with n1.
  destruct (Fs.exists_ n1 p); cbv beta; change (fs (set_fs n1 st)) with n1;
    [|by apply Hwrite].
  destruct (Fs.read_text n1 p) as [t|exc];
    [destruct (json_loads t) as [v|exc]; [by apply Hwrite|]|];
    (destruct (bool_decide _); [by apply Hwrite|done]).
Qed.

Lemma write_csv_report_post p results st st' :
  write_csv_report p results st = (Ok (), st') →
  console st' = console st ∧ invoked st' = invoked st
  ∧ Fs.stat (fs st') p = Some (File (snapshot results))
  ∧ ∀ q x, q ≠ p → Fs.stat (fs st) q = Some (File x) →
           Fs.stat (fs st') q = Some (File x).
Proof.
  unfold write_csv_report, mkdir_parents, write_file, mbind, M_bind.
  destruct (Fs.mkdir_parents (fs st) (Path.parent p)) as [n1|] eqn:Hmk;
    [|done].
  change (fs (set_fs n1 st)) with n1.
  destruct (Fs.write n1 p _) as [n2|] eqn:Hw; [|done]. intros [= <-].
  split; [done|]. split; [done|]. split; [by eapply write_stat|].
  intros q x Hq Hstat. simpl. eapply write_other; [done..|].
  by eapply mkdir_parents_other.
Qed.

Lemma write_csv_report_writes p results st :
  Path.name p ≠ "" →
  is_ok (Fs.mkdir_parents (fs st) (Path.parent p)) = true →
  Fs.is_dir (fs st) p = false →
  ∃ n', write_csv_report p results st = (Ok (), set_fs n' st)
    ∧ Fs.stat n' p = Some (File (snapshot results))
    ∧ is_ok (Fs.mkdir_parents n' (Path.parent p)) = true
    ∧ Fs.is_dir n' p = false.
Proof.
  intros Hname Hmk Hdir.
  destruct (Fs.mkdir_parents (fs st) (Path.parent p)) as [n1|] eqn:Hn1;
    [|done].
  destruct (write_ok n1 (Path.parent p) (Path.name p) (snapshot results))
    as [n' Hn'].
  { by eapply mkdir_parents_is_dir. }
  { unfold Fs.is_dir in *.
    by rewrite (mkdir_parents_child _ _ _ _ Hn1), <-(parent_name p Hname). }
  rewrite <-(parent_name p Hname) in Hn'.
  pose proof (write_stat _ _ _ _ Hn') as Hstat.
  exists n'. split; [|split; [done|split]].
  - unfold write_csv_report, mkdir_parents, write_file, mbind, M_bind.
    rewrite Hn1. change (fs (set_fs n1 st)) with n1.
    unfold snapshot in Hn'. by rewrite Hn'.
  - rewrite mkdir_parents_dir; [done|]. by eapply stat_parent_dir.
  - unfold Fs.is_dir. by rewrite Hstat.
Qed.

(** X3: the snapshot is overwritten: when the path has a name, is not a
    directory, and its directory is there or can be made,
    [write_csv_report] succeeds whatever the path held before, and the file
    then holds the header and one row per result, in order; written again
    with other results, it holds those and nothing of the first. *)
Theorem csv_snapshot_replaced (p : path) (st : State)
    (results results' : list ConversionResult) :
  Path.name p ≠ "" →
  is_ok (Fs.mkdir_parents (fs st) (Path.parent p)) = true →
  Fs.is_dir (fs st) p = false →
  ∃ n' n'',
    write_csv_report p results st = (Ok (), set_fs n' st)
    ∧ Fs.read_text n' p
      = Ok (CsvText (["source"; "target"; "status"; "error"]
                     :: map csv_row results))
    ∧ write_csv_report p results' (set_fs n' st) = (Ok (), set_fs n'' st)
    ∧ Fs.read_text n'' p
      = Ok (CsvText (["source"; "target"; "status"; "error"]
                     :: map csv_row results')).
Proof.
  intros Hname Hmk Hdir.
  destruct (write_csv_report_writes p results st Hname Hmk Hdir)
    as (n' & Hw & Hstat & Hmk' & Hdir').
  destruct (write_csv_report_writes p results' (set_fs n' st) Hname Hmk' Hdir')
    as (n'' & Hw' & Hstat' & _).
  exists n', n''. unfold Fs.read_text. by rewrite Hstat, Hstat'.
Qed.

(** X3 at work: the history file of the sample tree, taken as the snapshot
    path, is replaced by the table. *)
Lemma csv_snapshot_replaced_witness :
  ∃ n' n'',
    write_csv_report Sample.report [] (Sample.with_report Sample.one_run)
    = (Ok (), set_fs n' (Sample.with_report Sample.one_run))
    ∧ Fs.read_text n' Sample.report
      = Ok (CsvText [["source"; "target"; "status"; "error"]])
    ∧ write_csv_report Sample.report
        [result Sample.a_m4a Sample.a_mp3 "skipped" "target_exists"]
        (set_fs n' (Sample.with_report Sample.one_run))
      = (Ok (), set_fs n'' (Sample.with_report Sample.one_run))
    ∧ Fs.read_text n'' Sample.report
      = Ok (CsvText [["source"; "target"; "status"; "error"];
                     ["data/train/a.m4a"; "data/train/a.mp3"; "skipped";
                      "target_exists"]]).
Proof.
  apply (csv_snapshot_replaced Sample.report
           (Sample.with_report Sample.one_run) []
           [result Sample.a_m4a Sample.a_mp3 "skipped" "target_exists"]);
    by vm_compute.
Defined.

(** X4: a directory at the report path stops both writers with
    [IsADirectoryError], and nothing is changed. *)
Theorem report_path_is_a_directory (p : path) (st : State) :
  Path.name p ≠ "" → Fs.is_dir (fs st) p = true →
  (∀ payload, ∃ msg,
     write_json_report p payload st = (Raise (Exn IsADirectoryError msg), st))
  ∧ (∀ results, ∃ msg,
       write_csv_report p results st
       = (Raise (Exn IsADirectoryError msg), st)).
Proof.
  intros Hname Hdir.
  assert (∃ entries, Fs.stat (fs st) p = Some (Dir entries)) as [entries Hstat].
  { unfold Fs.is_dir in Hdir. destruct (Fs.stat (fs st) p) as [[|entries]|];
      try done. eauto. }
  assert (Fs.mkdir_parents (fs st) (Path.parent p) = Ok (fs st)) as Hmk.
  { apply mkdir_parents_dir. by eapply stat_parent_dir. }
  split.
  - intros payload. exists (Path.str p).
    unfold write_json_report, mkdir_parents, path_exists, look, try_except,
      read_text, lift, mbind, M_bind, mret, M_ret.
    rewrite Hmk, set_fs_id. cbv beta.
    rewrite (is_dir_exists _ _ Hdir). cbv beta. unfold Fs.read_text.
    by rewrite Hstat.
  - intros results. destruct (write_dir (fs st) p (snapshot results) Hdir)
      as [msg Hw].
    exists msg.
    unfold write_csv_report, mkdir_parents, write_file, mbind, M_bind.
    rewrite Hmk, set_fs_id. unfold snapshot in Hw. by rewrite Hw.
Qed.

(** X4 at work: [data/train] itself given as the report path. *)
Lemma report_path_is_a_directory_witness :
  ∃ msg, write_csv_report ["data"; "train"] [] Sample.start
         = (Raise (Exn IsADirectoryError msg), Sample.start).
Proof.
  apply (proj2 (report_path_is_a_directory ["data"; "train"] Sample.start
                  ltac:(by vm_compute) ltac:(by vm_compute)) []).
Defined.

(** X5: a history file that holds a snapshot table, the header row of
    [write_csv_report] first, as a run with both reports at one path leaves
    it, is text that [json.loads] rejects with [JSONDecodeError]: the
    [except] branch takes the history to be empty, the call succeeds, and
    the file then holds the new run alone. *)
Theorem json_decode_error_resets_history (p : path) (payload : json)
    (st : State) (rows : list (list string)) :
  Path.name p ≠ "" →
  Fs.stat (fs st) p
  = Some (File (Utf8 (CsvText (["source"; "target"; "status"; "error"]
                               :: rows)))) →
  ∃ n', write_json_report p payload st = (Ok (), set_fs n' st)
    ∧ Fs.read_text n' p = Ok (JsonText (JObj [("runs", JArr [payload])]))
    ∧ stored_runs n' p = Some [payload].
Proof.
  intros Hname Hstat.
  destruct (unparsable_history_is_reset p payload st _ Hname Hstat eq_refl)
    as (n' & Hw & Hstat').
  exists n'. unfold Fs.read_text, stored_runs. by rewrite Hstat'.
Qed.

(** X5 at work: a history file that holds the snapshot of a run that found
    nothing. *)
Lemma json_decode_error_resets_history_witness :
  ∃ n', write_json_report Sample.report (JStr "new")
          (Sample.with_report (snapshot []))
        = (Ok (), set_fs n' (Sample.with_report (snapshot [])))
    ∧ Fs.read_text n' Sample.report
      = Ok (JsonText (JObj [("runs", JArr [JStr "new"])]))
    ∧ stored_runs n' Sample.report = Some [JStr "new"].
Proof.
  apply (json_decode_error_resets_history Sample.report (JStr "new")
           (Sample.with_report (snapshot [])) []);
    by vm_compute.
Defined.

(** ** The whole run *)



(** The ways [main] can go: a precondition fails and one line is
    printed; or the loop runs, and then the history writer raises, or the
    snapshot writer raises, or both reports are written and the summary is
    printed. *)
Lemma main_cases e args st :
  let dir := Path.parse (input_dir args) in
  (precondition_failure e args st
   ∧ ∃ msg,
       main e args st
       = (Ok 1, {| fs := fs st; console := console st ++ [msg];
                   invoked := invoked st |})
       ∧ (msg = "Input directory does not exist: " +:+ Path.str dir
          ∨ msg = "ffmpeg not found. Install with Homebrew (`brew install ffmpeg`) or set "
                  +:+ "FFMPEG_BINARY to the full ffmpeg path."))
  ∨ (¬ precondition_failure e args st
     ∧ ∃ ffmpeg_bin results st1,
         find_ffmpeg e (fs st) = Some ffmpeg_bin
         ∧ convert_all e ffmpeg_bin (discover (fs st) dir) st
           = (Ok results, st1)
         ∧ ((∃ exc st2,
               write_json_report (Path.parse (report_json args))
                 (run_payload (utcnow e) dir results) st1 = (Raise exc, st2)
               ∧ main e args st = (Raise exc, st2))
            ∨ (∃ st2,
                 write_json_report (Path.parse (report_json args))
                   (run_payload (utcnow e) dir results) st1 = (Ok (), st2)
                 ∧ ((∃ exc st3,
                       write_csv_report (Path.parse (report_csv args))
                         results st2 = (Raise exc, st3)
                       ∧ main e args st = (Raise exc, st3))
                    ∨ (∃ st3,
                         write_csv_report (Path.parse (report_csv args))
                           results st2 = (Ok (), st3)
                         ∧ main e args st
                           = (Ok (if count_status "failed" results =? 0
                                  then 0 else 2),
                              {| fs := fs st3;
                                 console := console st3
                                   ++ summary args ffmpeg_bin results;
                                 invoked := invoked st3 |})))))).
Proof.
  cbv zeta.
  assert (Decision (precondition_failure e args st)) as [Hfail|Hok]
    by (unfold precondition_failure; apply _).
  - left. split; [done|].
    unfold main, ensure_ffmpeg, path_exists, path_is_dir, look, print.
    unfold mbind, M_bind, mret, M_ret.
    destruct (Fs.is_dir (fs st) (Path.parse (input_dir args))) eqn:Hdir.
    + rewrite (is_dir_exists _ _ Hdir). cbn [negb orb].
      destruct Hfail as [Hex|[?|Hfind]]; [|congruence|].
      { by rewrite (is_dir_exists _ _ Hdir) in Hex. }
      rewrite Hfind. simpl. eauto.
    + rewrite orb_true_r. eauto.
  - right. split; [done|].
    apply not_precondition_failure in Hok as (Hdir & ffmpeg_bin & Hfind).
    destruct (convert_all_total e ffmpeg_bin
                (discover (fs st) (Path.parse (input_dir args))) st
                (discover_targets _ _)) as (results & st1 & Hloop).
    exists ffmpeg_bin, results, st1. split; [done|]. split; [done|].
    rewrite (main_runs e args st ffmpeg_bin Hdir Hfind). unfold run.
    erewrite bind_ok by exact Hloop.
    destruct (write_json_report _ _ st1) as [[[]|exc] st2] eqn:Hjson.
    + right. exists st2. split; [done|]. erewrite bind_ok by exact Hjson.
      destruct (write_csv_report _ _ st2) as [[[]|exc] st3] eqn:Hcsv.
      * right. exists st3. split; [done|]. by erewrite bind_ok by exact Hcsv.
      * left. exists exc, st3. split; [done|].
        by erewrite bind_raise by exact Hcsv.
    + left. exists exc, st2. split; [done|].
      by erewrite bind_raise by exact Hjson.
Qed.



Lemma count_status_zero s results :
  count_status s results = 0 → Forall (λ r, status r ≠ s) results.
Proof.
  induction results as [|r results IH]; [constructor|].
  rewrite count_status_cons. pose proof (count_status_nonneg s results).
  destruct (decide (status r = s)); [lia|]. intros H0.
  constructor; [done|]. apply IH. lia.
Qed.

Lemma count_status_pos s results :
  count_status s results ≠ 0 → ∃ r, r ∈ results ∧ status r = s.
Proof.
  induction results as [|r results IH]; [done|].
  rewrite count_status_cons.
  destruct (decide (status r = s)).
  - intros _. exists r. split; [by left|done].
  - intros H0. destruct IH as (r' & ? & ?); [lia|].
    exists r'. split; [by right|done].
Qed.

(** The status [main] ends the process with once the command line is
    parsed: 0 only when the snapshot has been written and every result in
    it is [converted] or [skipped], 2 only when the snapshot has been
    written and a result in it is [failed]. *)
Lemma main_status (e : Env) (args : Args) (st : State) :
  let code := exit_status (main e args st).1 in
  let st' := (main e args st).2 in
  (code = 0 ∨ code = 1 ∨ code = 2)
  ∧ (code = 0 →
     ∃ results,
       Fs.stat (fs st') (Path.parse (report_csv args))
       = Some (File (snapshot results))
       ∧ Forall (λ r, status r = "converted" ∨ status r = "skipped") results)
  ∧ (code = 2 →
     ∃ results r,
       Fs.stat (fs st') (Path.parse (report_csv args))
       = Some (File (snapshot results))
       ∧ r ∈ results ∧ status r = "failed").
Proof.
  cbv zeta.
  destruct (main_cases e args st)
    as [(_ & msg & -> & _)
       |(_ & ffmpeg_bin & results & st1 & _ & Hloop & Hrest)];
    [simpl; split_and!; [auto|done|done]|].
  destruct Hrest as [(exc & st2 & _ & ->)|(st2 & _ & Hrest)];
    [simpl; split_and!; [auto|done|done]|].
  destruct Hrest as [(exc & st3 & _ & ->)|(st3 & Hcsv & ->)];
    [simpl; split_and!; [auto|done|done]|].
  apply write_csv_report_post in Hcsv as (_ & _ & Hstat & _).
  apply convert_all_inv in Hloop.
  assert (Forall known_status results) as Hknown.
  { clear -Hloop. induction Hloop as [|???? (?&?&?&?&?) _ IH]; by constructor. }
  simpl. destruct (count_status "failed" results =? 0) eqn:Hfailed.
  - apply Z.eqb_eq, count_status_zero in Hfailed.
    split; [auto|]. split; [|done]. intros _. exists results.
    split; [done|]. apply Forall_forall. intros r Hr.
    pose proof (proj1 (Forall_forall _ _) Hknown r Hr) as [?|[?|?]]; auto.
    by destruct (proj1 (Forall_forall _ _) Hfailed r Hr).
  - apply Z.eqb_neq, count_status_pos in Hfailed as (r & ? & ?).
    split; [auto|]. split; [done|]. intros _. by exists results, r.
Qed.


(** X7: the exit status of the process is 0, 1 or 2.  It is 0 only when
    help was asked for, and then nothing is written or run, or when the
    snapshot has been written and every result in it is [converted] or
    [skipped]; it is 2 only when the command line was rejected, and then
    nothing has changed, or when the snapshot has been written and a result
    in it is [failed]. *)
Theorem exit_status_meaning (e : Env) (cl : ParseOutcome) (st : State) :
  let code := (script e cl st).1 in
  let st' := (script e cl st).2 in
  (code = 0 ∨ code = 1 ∨ code = 2)
  ∧ (code = 0 →
     (∃ help, cl = HelpShown help ∧ fs st' = fs st
        ∧ invoked st' = invoked st)
     ∨ ∃ args results,
         cl = Parsed args
         ∧ Fs.stat (fs st') (Path.parse (report_csv args))
           = Some (File (snapshot results))
         ∧ Forall (λ r, status r = "converted" ∨ status r = "skipped")
             results)
  ∧ (code = 2 →
     (∃ message, cl = UsageError message ∧ st' = st)
     ∨ ∃ args results r,
         cl = Parsed args
         ∧ Fs.stat (fs st') (Path.parse (report_csv args))
           = Some (File (snapshot results))
         ∧ r ∈ results ∧ status r = "failed").
Proof.
  cbv zeta. destruct cl as [args|help|message].
  - destruct (main_status e args st) as (Hcode & Hzero & Htwo).
    split; [exact Hcode|]. split.
    + intros H0. destruct (Hzero H0) as (results & ? & ?).
      right. by exists args, results.
    + intros H2. destruct (Htwo H2) as (results & r & ? & ? & ?).
      right. by exists args, results, r.
  - split; [by left|]. split; [|done]. intros _. left. by exists help.
  - split; [by right; right|]. split; [done|]. intros _. left.
    by exists message.
Qed.

Lemma main_completes_inv e args st code st' :
  main e args st = (Ok code, st') → code ≠ 1 →
  ∃ ffmpeg_bin results st1 st2 st3,
    convert_all e ffmpeg_bin (discover (fs st) (Path.parse (input_dir args)))
      st = (Ok results, st1)
    ∧ write_json_report (Path.parse (report_json args))
        (run_payload (utcnow e) (Path.parse (input_dir args)) results) st1
      = (Ok (), st2)
    ∧ write_csv_report (Path.parse (report_csv args)) results st2
      = (Ok (), st3)
    ∧ fs st' = fs st3.
Proof.
  intros Hmain Hcode.
  destruct (main_cases e args st)
    as [(_ & msg & Hhalt & _)
       |(_ & ffmpeg_bin & results & st1 & _ & Hloop & Hrest)].
  { rewrite Hhalt in Hmain. by injection Hmain as <-. }
  destruct Hrest as [(exc & st2 & _ & Hraise)|(st2 & Hjson & Hrest)].
  { by rewrite Hraise in Hmain. }
  destruct Hrest as [(exc & st3 & _ & Hraise)|(st3 & Hcsv & Hret)].
  { by rewrite Hraise in Hmain. }
  rewrite Hret in Hmain. injection Hmain as _ <-.
  by exists ffmpeg_bin, results, st1, st2, st3.
Qed.

(** X8: when the two reports have different paths, a run that completes
    leaves them telling the same: the snapshot holds the rows of the
    results of the run, and the history holds an object whose last run is
    the record made of these same results, one per discovered source. *)
Theorem reports_agree (e : Env) (args : Args) (st st' : State) (code : Z) :
  main e args st = (Ok code, st') → code ≠ 1 →
  Path.parse (report_json args) ≠ Path.parse (report_csv args) →
  let dir := Path.parse (input_dir args) in
  ∃ results fields runs,
    length results = length (discover (fs st) dir)
    ∧ Fs.read_text (fs st') (Path.parse (report_csv args))
      = Ok (CsvText (["source"; "target"; "status"; "error"]
                     :: map csv_row results))
    ∧ Fs.read_text (fs st') (Path.parse (report_json args))
      = Ok (JsonText (JObj fields))
    ∧ dict_get "runs" fields
      = Some (JArr (runs ++ [run_payload (utcnow e) dir results])).
Proof.
  intros Hmain Hcode Hpaths dir.
  destruct (main_completes_inv _ _ _ _ _ Hmain Hcode)
    as (ffmpeg_bin & results & st1 & st2 & st3 & Hloop & Hjson & Hcsv & Hfs).
  apply write_json_report_post in Hjson as (_ & _ & fields & runs & Hj & Hruns).
  apply write_csv_report_post in Hcsv as (_ & _ & Hc & Hframe).
  exists results, fields, runs. rewrite Hfs. unfold Fs.read_text.
  rewrite Hc, (Hframe _ _ Hpaths Hj).
  split; [|done]. apply convert_all_inv in Hloop.
  symmetry. exact (Forall2_length _ _ _ Hloop).
Qed.

(** X8 at work: a run over the sample tree with the default paths. *)
Lemma reports_agree_witness :
  ∃ st' results fields runs,
    main (Sample.env Sample.good_tool) default_args Sample.start = (Ok 0, st')
    ∧ length results = 2%nat
    ∧ Fs.read_text (fs st') (Path.parse (report_csv default_args))
      = Ok (CsvText (["source"; "target"; "status"; "error"]
                     :: map csv_row results))
    ∧ Fs.read_text (fs st') (Path.parse (report_json default_args))
      = Ok (JsonText (JObj fields))
    ∧ dict_get "runs" fields
      = Some (JArr (runs ++ [run_payload
                               (utcnow (Sample.env Sample.good_tool))
                               (Path.parse (input_dir default_args))
                               results])).
Proof.
  assert (∃ st', main (Sample.env Sample.good_tool) default_args Sample.start
                 = (Ok 0, st')) as [st' Hmain].
  { eexists. vm_compute. reflexivity. }
  destruct (reports_agree _ _ _ _ _ Hmain)
    as (results & fields & runs & Hlen & H);
    [done|by vm_compute|].
  exists st', results, fields, runs. split; [done|]. split; [|done].
  rewrite Hlen. by vm_compute.
Defined.

(** X9: when both reports are given the same path, the snapshot, written
    last, is what a run that completes leaves there: the file holds the
    table and no run at all, so that no history ever builds up. *)
Theorem shared_report_path_keeps_no_history (e : Env) (args : Args)
    (st st' : State) (code : Z) :
  main e args st = (Ok code, st') → code ≠ 1 →
  Path.parse (report_json args) = Path.parse (report_csv args) →
  ∃ results,
    Fs.read_text (fs st') (Path.parse (report_json args))
    = Ok (CsvText (["source"; "target"; "status"; "error"]
                   :: map csv_row results))
    ∧ stored_runs (fs st') (Path.parse (report_json args)) = None.
Proof.
  intros Hmain Hcode Hpaths.
  destruct (main_completes_inv _ _ _ _ _ Hmain Hcode)
    as (ffmpeg_bin & results & st1 & st2 & st3 & _ & _ & Hcsv & Hfs).
  apply write_csv_report_post in Hcsv as (_ & _ & Hc & _).
  exists results. unfold Fs.read_text, stored_runs. by rewrite Hpaths, Hfs, Hc.
Qed.

(** X9 at work: both reports at [out/report]. *)
Lemma shared_report_path_keeps_no_history_witness :
  ∃ st',
    main (Sample.env Sample.good_tool) shared_report_args Sample.start
    = (Ok 0, st')
    ∧ stored_runs (fs st') (Path.parse (report_json shared_report_args))
      = None.
Proof.
  assert (∃ st', main (Sample.env Sample.good_tool) shared_report_args
                   Sample.start = (Ok 0, st')) as [st' Hmain].
  { eexists. vm_compute. reflexivity. }
  destruct (shared_report_path_keeps_no_history _ _ _ _ _ Hmain)
    as (results & _ & Hnone); [done|by vm_compute|].
  exists st'. split; [exact Hmain|exact Hnone].
Defined.

(** ** C1: the totals a run records *)

(** C1: every call of [convert_file] returns a result with one of the
    three statuses, which are three different texts; and a run that
    completes (it returns, and not from a failed precondition) has gone
    through the loop, one result per discovered source, has appended to the
    history file the record made of these results, and has then written
    the snapshot.  The history file holds, after [write_json_report] and,
    when the snapshot has a path of its own, at the end of the run, the
    runs there were followed by this record, whose totals add up:
    [found_m4a] is the number of sources and equals
    [converted + skipped + failed]. *)
Theorem totals_partition (e : Env) (args : Args) (st : State) :
  (∀ src dst ffmpeg_bin s,
     ∃ r s', convert_file e src dst ffmpeg_bin s = (Ok r, s')
       ∧ known_status r)
  ∧ NoDup ["converted"; "skipped"; "failed"]
  ∧ (∀ code st', main e args st = (Ok code, st') → code ≠ 1 →
     let dir := Path.parse (input_dir args) in
     let history := Path.parse (report_json args) in
     ∃ ffmpeg_bin results st1 st2 st3 runs,
       convert_all e ffmpeg_bin (discover (fs st) dir) st = (Ok results, st1)
       ∧ Forall2 (λ src r, source r = Path.str src ∧ known_status r)
           (discover (fs st) dir) results
       ∧ write_json_report history (run_payload (utcnow e) dir results) st1
         = (Ok (), st2)
       ∧ write_csv_report (Path.parse (report_csv args)) results st2
         = (Ok (), st3)
       ∧ fs st' = fs st3
       ∧ stored_runs (fs st2) history
         = Some (runs ++ [run_payload (utcnow e) dir results])
       ∧ (history ≠ Path.parse (report_csv args) →
          stored_runs (fs st') history
          = Some (runs ++ [run_payload (utcnow e) dir results]))
       ∧ ∃ found converted skipped failed,
           payload_totals (run_payload (utcnow e) dir results)
           = Some (found, converted, skipped, failed)
           ∧ found = Z.of_nat (length (discover (fs st) dir))
           ∧ converted = count_status "converted" results
           ∧ skipped = count_status "skipped" results
           ∧ failed = count_status "failed" results
           ∧ found = converted + skipped + failed).
Proof.
  split; [|split].
  - intros src dst ffmpeg_bin s.
    destruct (convert_file_returns e src dst ffmpeg_bin s)
      as (r & s' & Hr & _ & _ & Hknown). eauto.
  - apply (bool_decide_unpack _). by vm_compute.
  - intros code st' Hmain Hcode. cbv zeta.
    destruct (main_completes_inv _ _ _ _ _ Hmain Hcode)
      as (ffmpeg_bin & results & st1 & st2 & st3
          & Hloop & Hjson & Hcsv & Hfs).
    destruct (write_json_report_post _ _ _ _ Hjson)
      as (_ & _ & fields & runs & Hfile & Hruns).
    destruct (write_csv_report_post _ _ _ _ Hcsv) as (_ & _ & _ & Hframe).
    exists ffmpeg_bin, results, st1, st2, st3, runs.
    split; [exact Hloop|]. split.
    { eapply Forall2_impl; [by eapply convert_all_inv|].
      by intros ?? (? & ? & ? & ? & ?). }
    split; [exact Hjson|]. split; [exact Hcsv|]. split; [exact Hfs|].
    split. { unfold stored_runs. by rewrite Hfile, Hruns. }
    split.
    { intros Hpaths. unfold stored_runs.
      by rewrite Hfs, (Hframe _ _ Hpaths Hfile), Hruns. }
    by eapply totals_add_up.
Qed.

(** C1 at work: a run over the sample tree finds two sources, and the
    record it leaves in the history file has totals that add up to two. *)
Lemma totals_partition_witness :
  ∃ st' runs results found converted skipped failed,
    main (Sample.env Sample.good_tool) default_args Sample.start
    = (Ok 0, st')
    ∧ stored_runs (fs st') (Path.parse (report_json default_args))
      = Some (runs ++ [run_payload (utcnow (Sample.env Sample.good_tool))
                         (Path.parse (input_dir default_args)) results])
    ∧ payload_totals
        (run_payload (utcnow (Sample.env Sample.good_tool))
           (Path.parse (input_dir default_args)) results)
      = Some (found, converted, skipped, failed)
    ∧ found = 2
    ∧ found = converted + skipped + failed.
Proof.
  assert (∃ st', main (Sample.env Sample.good_tool) default_args Sample.start
                 = (Ok 0, st')) as [st' Hmain].
  { eexists. vm_compute. reflexivity. }
  destruct (proj2 (proj2 (totals_partition (Sample.env Sample.good_tool)
                            default_args Sample.start)) 0 st' Hmain)
    as (ffmpeg_bin & results & st1 & st2 & st3 & runs & _ & _ & _ & _ & _ & _
        & Hstored & found & converted & skipped & failed
        & Htotals & Hfound & _ & _ & _ & Hsum);
    [discriminate|].
  exists st', runs, results, found, converted, skipped, failed.
  split; [exact Hmain|]. split; [apply Hstored; discriminate|].
  split; [exact Htotals|]. split; [|exact Hsum].
  rewrite Hfound. by vm_compute.
Defined.

(** ** Nothing is removed *)

Lemma convert_all_keeps_files e ffmpeg_bin sources st results st' :
  (∀ cmd n p, Fs.exists_ n p = true → Fs.exists_ (spawn e cmd n).2 p = true) →
  convert_all e ffmpeg_bin sources st = (Ok results, st') →
  ∀ p, Fs.exists_ (fs st) p = true → Fs.exists_ (fs st') p = true.
Proof.
  intros Htool. revert st results.
  induction sources as [|src rest IH]; intros st results.
  - by intros [= <- <-].
  - simpl. intros H.
    apply bind_inv_ok in H as (dst & st0 & Hdst & H).
    injection Hdst as Hdst <-.
    apply bind_inv_ok in H as (r & st1 & Hr & H).
    apply bind_inv_ok in H as (rs & st2 & Hrs & H).
    injection H as <- <-. intros p Hp. eapply IH; [done|].
    destruct (Fs.exists_ (fs st) dst) eqn:Hex.
    + rewrite convert_file_skip in Hr by done. by injection Hr as _ <-.
    + rewrite convert_file_run in Hr by done. injection Hr as _ <-.
      by apply Htool.
Qed.

(** X10: the script removes nothing: if the tool removes nothing, whatever
    was there before a run, file or directory, is there after it, however
    the run ends. *)
Theorem nothing_is_removed (e : Env) (args : Args) (st : State) :
  (∀ cmd n p, Fs.exists_ n p = true → Fs.exists_ (spawn e cmd n).2 p = true) →
  ∀ p, Fs.exists_ (fs st) p = true →
       Fs.exists_ (fs (main e args st).2) p = true.
Proof.
  intros Htool p Hp.
  destruct (main_cases e args st)
    as [(_ & msg & -> & _)
       |(_ & ffmpeg_bin & results & st1 & _ & Hloop & Hrest)]; [done|].
  pose proof (convert_all_keeps_files _ _ _ _ _ _ Htool Hloop p Hp) as Hp1.
  destruct Hrest as [(exc & st2 & Hjson & ->)|(st2 & Hjson & Hrest)];
    pose proof (write_json_report_keeps _ _ _ _ _ _ Hjson Hp1) as Hp2;
    [done|].
  destruct Hrest as [(exc & st3 & Hcsv & ->)|(st3 & Hcsv & ->)];
    by pose proof (write_csv_report_keeps _ _ _ _ _ _ Hcsv Hp2).
Qed.

Lemma good_tool_keeps cmd n p :
  Fs.exists_ n p = true → Fs.exists_ (Sample.good_tool cmd n).2 p = true.
Proof.
  unfold Sample.good_tool. simpl.
  destruct (Fs.write n _ Binary) eqn:Hw; [|done]. by eapply write_keeps.
Qed.

(** X10 at work: the sources of the sample tree are there after a run. *)
Lemma nothing_is_removed_witness :
  Fs.exists_ (fs Sample.start) Sample.a_m4a = true
  ∧ Fs.exists_
      (fs (main (Sample.env Sample.good_tool) default_args Sample.start).2)
      Sample.a_m4a = true.
Proof.
  split; [by vm_compute|].
  apply (nothing_is_removed (Sample.env Sample.good_tool) default_args
           Sample.start good_tool_keeps).
  by vm_compute.
Defined.

(** ** Two runs in a row *)

Lemma convert_file_keeps_files e src dst ffmpeg_bin st r st' :
  (∀ cmd n p, Fs.exists_ n p = true → Fs.exists_ (spawn e cmd n).2 p = true) →
  convert_file e src dst ffmpeg_bin st = (Ok r, st') →
  ∀ p, Fs.exists_ (fs st) p = true → Fs.exists_ (fs st') p = true.
Proof.
  intros Htool Hr p Hp. destruct (Fs.exists_ (fs st) dst) eqn:Hex.
  - rewrite convert_file_skip in Hr by done. by injection Hr as _ <-.
  - rewrite convert_file_run in Hr by done. injection Hr as _ <-.
    by apply Htool.
Qed.

(** A result that is not [failed] has its target there. *)
Lemma convert_file_done e src dst ffmpeg_bin st r st' :
  (∀ completed,
     (spawn e (ffmpeg_cmd ffmpeg_bin src dst) (fs st)).1 = Ok completed →
     returncode completed = 0 →
     Fs.exists_ (spawn e (ffmpeg_cmd ffmpeg_bin src dst) (fs st)).2 dst
     = true) →
  convert_file e src dst ffmpeg_bin st = (Ok r, st') →
  status r ≠ "failed" → Fs.exists_ (fs st') dst = true.
Proof.
  intros Hw. destruct (Fs.exists_ (fs st) dst) eqn:Hdst.
  - rewrite convert_file_skip by done. by intros [= <- <-].
  - rewrite convert_file_run by done. intros [= <- <-]. simpl.
    destruct (spawn e _ (fs st)) as [[completed|exc] n]; simpl in *; [|done].
    destruct (returncode completed =? 0) eqn:Hcode; [|done].
    intros _. apply (Hw completed); [done|by apply Z.eqb_eq].
Qed.

Lemma convert_all_done e ffmpeg_bin sources st results st' :
  (∀ cmd n p, Fs.exists_ n p = true → Fs.exists_ (spawn e cmd n).2 p = true) →
  (∀ src dst n completed,
     src ∈ sources → Path.with_suffix src ".mp3" = Ok dst →
     (spawn e (ffmpeg_cmd ffmpeg_bin src dst) n).1 = Ok completed →
     returncode completed = 0 →
     Fs.exists_ (spawn e (ffmpeg_cmd ffmpeg_bin src dst) n).2 dst = true) →
  convert_all e ffmpeg_bin sources st = (Ok results, st') →
  Forall2 (λ src r, status r ≠ "failed" →
             ∃ dst, Path.with_suffix src ".mp3" = Ok dst
               ∧ Fs.exists_ (fs st') dst = true) sources results.
Proof.
  intros Hkeep. revert st results.
  induction sources as [|src rest IH]; intros st results Hwrites.
  - intros [= <- <-]. constructor.
  - simpl. intros H.
    apply bind_inv_ok in H as (dst & st0 & Hdst & H).
    injection Hdst as Hdst <-.
    apply bind_inv_ok in H as (r & st1 & Hr & H).
    apply bind_inv_ok in H as (rs & st2 & Hrs & H).
    injection H as <- <-. constructor.
    + intros Hstatus. exists dst. split; [done|].
      eapply convert_all_keeps_files; [exact Hkeep|exact Hrs|].
      eapply convert_file_done; [|exact Hr|exact Hstatus].
      intros completed. apply Hwrites; [by left|done].
    + eapply IH; [|exact Hrs].
      intros src' dst' n completed Hin. apply Hwrites. by right.
Qed.

Lemma convert_all_skips e ffmpeg_bin sources st results st' :
  (∀ cmd n p, Fs.exists_ n p = true → Fs.exists_ (spawn e cmd n).2 p = true) →
  convert_all e ffmpeg_bin sources st = (Ok results, st') →
  Forall2 (λ src r,
             (∃ dst, Path.with_suffix src ".mp3" = Ok dst
                ∧ Fs.exists_ (fs st) dst = true) →
             status r = "skipped") sources results.
Proof.
  intros Hkeep. revert st results.
  induction sources as [|src rest IH]; intros st results.
  - intros [= <- <-]. constructor.
  - simpl. intros H.
    apply bind_inv_ok in H as (dst & st0 & Hdst & H).
    injection Hdst as Hdst <-.
    apply bind_inv_ok in H as (r & st1 & Hr & H).
    apply bind_inv_ok in H as (rs & st2 & Hrs & H).
    injection H as <- <-. constructor.
    + intros (dst' & Hdst' & Hex). rewrite Hdst in Hdst'.
      injection Hdst' as <-. rewrite convert_file_skip in Hr by done.
      by injection Hr as <- _.
    + eapply Forall2_impl; [by eapply IH|]. simpl.
      intros src' r' Hskip (dst' & ? & ?). apply Hskip.
      exists dst'. split; [done|]. by eapply convert_file_keeps_files.
Qed.

(** X11: two runs of the script in a row, both completing, with a tool
    that removes nothing and that, for the sources of the first run, leaves
    the output it was asked for whenever it exits with 0: the snapshot of
    each run holds the results of that run, one per source it found, and
    every source that the first run converted or skipped is skipped by the
    second. *)
Theorem done_is_skipped_next_run (e : Env) (args : Args)
    (st st1 st2 : State) (code code' : Z) :
  (∀ cmd n p, Fs.exists_ n p = true → Fs.exists_ (spawn e cmd n).2 p = true) →
  (∀ ffmpeg_bin src dst n completed,
     src ∈ discover (fs st) (Path.parse (input_dir args)) →
     Path.with_suffix src ".mp3" = Ok dst →
     (spawn e (ffmpeg_cmd ffmpeg_bin src dst) n).1 = Ok completed →
     returncode completed = 0 →
     Fs.exists_ (spawn e (ffmpeg_cmd ffmpeg_bin src dst) n).2 dst = true) →
  main e args st = (Ok code, st1) → code ≠ 1 →
  main e args st1 = (Ok code', st2) → code' ≠ 1 →
  ∃ results results',
    Fs.stat (fs st1) (Path.parse (report_csv args))
    = Some (File (snapshot results))
    ∧ Fs.stat (fs st2) (Path.parse (report_csv args))
      = Some (File (snapshot results'))
    ∧ Forall2 (λ src r, source r = Path.str src)
        (discover (fs st) (Path.parse (input_dir args))) results
    ∧ Forall2 (λ src r, source r = Path.str src)
        (discover (fs st1) (Path.parse (input_dir args))) results'
    ∧ ∀ i j src r r',
        discover (fs st) (Path.parse (input_dir args)) !! i = Some src →
        results !! i = Some r →
        discover (fs st1) (Path.parse (input_dir args)) !! j = Some src →
        results' !! j = Some r' →
        status r ≠ "failed" → status r' = "skipped".
Proof.
  intros Hkeep Hwrites Hmain Hcode Hmain' Hcode'.
  destruct (main_completes_inv _ _ _ _ _ Hmain Hcode)
    as (bin & results & sa & sb & sc & Hloop & Hjson & Hcsv & Hfs).
  destruct (main_completes_inv _ _ _ _ _ Hmain' Hcode')
    as (bin' & results' & sa' & sb' & sc' & Hloop' & Hjson' & Hcsv' & Hfs').
  exists results, results'. split_and!.
  - rewrite Hfs. by apply write_csv_report_post in Hcsv as (_ & _ & ? & _).
  - rewrite Hfs'. by apply write_csv_report_post in Hcsv' as (_ & _ & ? & _).
  - eapply Forall2_impl; [by eapply convert_all_inv|].
    by intros ?? (? & ? & ? & ? & ?).
  - eapply Forall2_impl; [by eapply convert_all_inv|].
    by intros ?? (? & ? & ? & ? & ?).
  - intros i j src r r' Hi Hir Hj Hjr Hr.
    pose proof (convert_all_done _ _ _ _ _ _ Hkeep (Hwrites bin) Hloop)
      as Hfirst.
    pose proof (convert_all_skips _ _ _ _ _ _ Hkeep Hloop') as Hsecond.
    destruct (Forall2_lookup_lr _ _ _ _ _ _ Hfirst Hi Hir Hr)
      as (dst & Hdst & Hex).
    apply (Forall2_lookup_lr _ _ _ _ _ _ Hsecond Hj Hjr).
    exists dst. split; [done|]. rewrite Hfs.
    eapply write_csv_report_keeps; [exact Hcsv|].
    by eapply write_json_report_keeps.
Qed.

Lemma careful_tool_keeps cmd n p :
  Fs.exists_ n p = true → Fs.exists_ (careful_tool cmd n).2 p = true.
Proof.
  unfold careful_tool. destruct (Fs.write n _ Binary) eqn:Hw; [|done].
  by eapply write_keeps.
Qed.

Lemma careful_tool_writes cmd n completed :
  (careful_tool cmd n).1 = Ok completed → returncode completed = 0 →
  Fs.exists_ (careful_tool cmd n).2 (Path.parse (default "" (last cmd)))
  = true.
Proof.
  unfold careful_tool. destruct (Fs.write n _ Binary) eqn:Hw; simpl.
  - intros _ _. unfold Fs.exists_. apply bool_decide_eq_true.
    rewrite (write_stat _ _ _ _ Hw). eauto.
  - by intros [= <-].
Qed.

(** X11 at work: over the sample tree the first run converts [b.m4a] and
    skips [a.m4a], and the second run skips both. *)
Lemma done_is_skipped_next_run_witness :
  ∃ st1 st2 results results',
    main (Sample.env careful_tool) default_args Sample.start = (Ok 0, st1)
    ∧ main (Sample.env careful_tool) default_args st1 = (Ok 0, st2)
    ∧ Fs.stat (fs st1) (Path.parse (report_csv default_args))
      = Some (File (snapshot results))
    ∧ Fs.stat (fs st2) (Path.parse (report_csv default_args))
      = Some (File (snapshot results'))
    ∧ ∀ i j src r r',
        discover (fs Sample.start) (Path.parse (input_dir default_args)) !! i
        = Some src →
        results !! i = Some r →
        discover (fs st1) (Path.parse (input_dir default_args)) !! j
        = Some src →
        results' !! j = Some r' →
        status r ≠ "failed" → status r' = "skipped".
Proof.
  assert (∃ st1 st2,
            main (Sample.env careful_tool) default_args Sample.start
            = (Ok 0, st1)
            ∧ main (Sample.env careful_tool) default_args st1 = (Ok 0, st2))
    as (st1 & st2 & Hmain & Hmain').
  { eexists _, _. split; vm_compute; reflexivity. }
  assert (discover (fs Sample.start) (Path.parse (input_dir default_args))
          = [Sample.a_m4a; Sample.b_m4a]) as Hsources by (by vm_compute).
  destruct (done_is_skipped_next_run (Sample.env careful_tool) default_args
              Sample.start st1 st2 0 0 careful_tool_keeps)
    as (results & results' & Hcsv & Hcsv' & _ & _ & Hskip);
    [|exact Hmain|discriminate|exact Hmain'|discriminate|].
  - intros bin src dst n completed Hsrc Hdst Hrun Hcode.
    rewrite Hsources in Hsrc.
    assert (Path.parse (default "" (last (ffmpeg_cmd bin src dst))) = dst)
      as Hlast.
    { apply elem_of_cons in Hsrc as [->|Hsrc];
        [|apply list_elem_of_singleton in Hsrc as ->];
        vm_compute in Hdst; injection Hdst as <-; by vm_compute. }
    pose proof (careful_tool_writes _ _ _ Hrun Hcode) as Hthere.
    rewrite Hlast in Hthere. exact Hthere.
  - exists st1, st2, results, results'.
    split; [exact Hmain|]. split; [exact Hmain'|].
    split; [exact Hcsv|]. split; [exact Hcsv'|exact Hskip].
Defined.

(** ** C3: what is there is not converted again *)






(** ** The tool that is found *)

(** X12: what [find_ffmpeg] returns is never the empty text, and it is the
    value of the variable, which then names something that exists, or what
    the search path gave, or one of the two fallback locations, which then
    exists. *)
Theorem found_tool_is_usable (e : Env) (n : node) (tool : string) :
  find_ffmpeg e n = Some tool →
  tool ≠ ""
  ∧ (environ e !! "FFMPEG_BINARY" = Some tool ∧ exists_at n tool = true
     ∨ which e "ffmpeg" n = Some tool
     ∨ (tool = "/opt/homebrew/bin/ffmpeg" ∨ tool = "/usr/local/bin/ffmpeg")
       ∧ exists_at n tool = true).
Proof.
  intros Hfind. split; [by eapply find_ffmpeg_truthy|].
  revert Hfind. unfold find_ffmpeg, exists_at.
  destruct (environ e !! "FFMPEG_BINARY") as [p|] eqn:Henv; simpl.
  - destruct (Str.truthy p && Fs.exists_ n (Path.parse p)) eqn:Hp.
    + intros [= <-]. apply andb_true_iff in Hp as [_ Hp]. auto.
    + destruct (which e "ffmpeg" n) as [q|]; simpl.
      * destruct (Str.truthy q); [intros [= <-]; auto|].
        repeat case_match; intros [= <-]; auto.
      * repeat case_match; intros [= <-]; auto.
  - destruct (which e "ffmpeg" n) as [q|]; simpl.
    + destruct (Str.truthy q); [intros [= <-]; auto|].
      repeat case_match; intros [= <-]; auto.
    + repeat case_match; intros [= <-]; auto.
Qed.

(** X12 at work: nothing set, nothing on the search path, and the second
    fallback location there. *)
Lemma found_tool_is_usable_witness :
  let e := {| environ := ∅; which := λ _ _, None;
              spawn := Sample.bad_tool; utcnow := "" |} in
  let n := Dir {[ "/" := Dir {[ "usr" := Dir {[ "local" := Dir {[ "bin" :=
                  Dir {[ "ffmpeg" := File Binary ]} ]} ]} ]} ]} in
  find_ffmpeg e n = Some "/usr/local/bin/ffmpeg"
  ∧ exists_at n "/usr/local/bin/ffmpeg" = true.
Proof.
  intros e n.
  assert (find_ffmpeg e n = Some "/usr/local/bin/ffmpeg") as Hfind
    by by vm_compute.
  split; [done|].
  destruct (found_tool_is_usable e n _ Hfind) as (_ & [[? ?]|[?|[_ ?]]]);
    done.
Defined.

(** X13: [ensure_ffmpeg] changes nothing, and it reports an error exactly
    when [find_ffmpeg] finds nothing: what is found is never the empty
    text, so that the test [if ffmpeg_path] does not take a found tool for a
    missing one. *)
Theorem ensure_ffmpeg_agrees_with_find_ffmpeg (e : Env) (st : State) :
  ∃ r, ensure_ffmpeg e st = (Ok r, st)
    ∧ (r = None ↔ is_Some (find_ffmpeg e (fs st))).
Proof.
  unfold ensure_ffmpeg, look, mbind, M_bind, mret, M_ret.
  destruct (find_ffmpeg e (fs st)) as [tool|] eqn:Hfind; simpl.
  - apply find_ffmpeg_truthy, truthy_iff in Hfind. rewrite Hfind.
    exists None. split; [done|]. split; [by eauto|done].
  - eexists. split; [done|]. split; [done|]. by intros [? ?].
Qed.

(** ** Where the target goes *)

Lemma name_last p :
  Path.name p ≠ "" → p = removelast p ++ [Path.name p].
Proof.
  unfold Path.name. destruct p as [|a [|b p]]; [done| |].
  - by destruct (Path.is_anchor a).
  - intros _. by apply removelast_last.
Qed.

Lemma name_snoc q x :
  Path.is_anchor x = false → Path.name (q ++ [x]) = x.
Proof.
  intros Hx. unfold Path.name. destruct q as [|a [|b q]]; simpl.
  - by rewrite Hx.
  - done.
  - change (b :: q ++ [x]) with ((b :: q) ++ [x]). by rewrite last_snoc.
Qed.

Lemma parent_snoc q x :
  Path.is_anchor x = false → Path.parent (q ++ [x]) = q.
Proof.
  intros Hx. unfold Path.parent. destruct q as [|a q]; simpl.
  - by rewrite Hx.
  - destruct (q ++ [x]) eqn:Hq; [by destruct q|]. rewrite <-Hq.
    f_equal. apply List.removelast_last.
Qed.

Lemma ends_in_not_anchor s ext :
  ext ≠ "" → Str.endswith s ("." +:+ ext) = true → Path.is_anchor s = false.
Proof.
  intros Hext [stem ->]%endswith_iff. unfold Path.is_anchor.
  apply orb_false_iff.
  split; apply bool_decide_eq_false; intros H;
    destruct stem as [|a [|b [|c stem]]]; destruct ext as [|d [|f ext]];
    try done; by vm_compute in H.
Qed.

Lemma append_inj_l stem1 stem2 ext :
  stem1 +:+ ext = stem2 +:+ ext → stem1 = stem2.
Proof.
  intros H%(f_equal Str.chars). rewrite !chars_app in H.
  apply app_inv_tail in H. by apply chars_inj.
Qed.

(** X14: the target lies next to its source and is another path: for a path
    whose name ends in [.m4a], [with_suffix] gives a path in the same
    directory, different from the source, whose name ends in [.mp3] and
    not in [.m4a], so that a target is never taken for a source. *)
Theorem target_next_to_source (p : path) :
  Str.endswith (Path.name p) ".m4a" = true →
  ∃ dst, Path.with_suffix p ".mp3" = Ok dst
    ∧ dst ≠ p
    ∧ Path.parent dst = Path.parent p
    ∧ Str.endswith (Path.name dst) ".mp3" = true
    ∧ Str.endswith (Path.name dst) ".m4a" = false.
Proof.
  intros Hends.
  pose proof (ends_in_not_anchor _ "m4a" ltac:(done) Hends) as Hanchor.
  apply endswith_iff in Hends as [stem Hname].
  assert (Path.name p ≠ "") as Hnonempty.
  { rewrite Hname. by destruct stem. }
  pose proof (name_last p Hnonempty) as Hp.
  set (name' := if decide (stem = "") then ".m4a.mp3" else stem +:+ ".mp3").
  assert (Str.endswith name' ".mp3" = true) as Hmp3.
  { apply endswith_iff. unfold name'. destruct (decide (stem = ""));
      [by exists ".m4a"|by exists stem]. }
  pose proof (ends_in_not_anchor _ "mp3" ltac:(done) Hmp3) as Hanchor'.
  exists (removelast p ++ [name']). split; [by apply with_suffix_m4a|].
  split; [|split; [|split]].
  - intros Heq. pose proof (eq_trans Heq Hp) as Heq'. clear Heq.
    apply (inj (app _)) in Heq'. injection Heq' as Heq.
    rewrite Hname in Heq. unfold name' in Heq.
    destruct (decide (stem = "")) as [->|_]; [done|].
    apply (f_equal Str.chars) in Heq. rewrite !chars_app in Heq.
    by apply (inj (app _)) in Heq.
  - rewrite parent_snoc by done.
    transitivity (Path.parent (removelast p ++ [Path.name p]));
      [by rewrite parent_snoc|by rewrite <-Hp].
  - by rewrite name_snoc.
  - rewrite name_snoc by done. apply bool_decide_eq_false.
    intros Hsuffix. apply endswith_iff in Hmp3 as [stem' Hstem'].
    rewrite Hstem', chars_app in Hsuffix.
    change (Str.chars ".m4a") with (Str.chars ".m4" ++ ["a"%char]) in Hsuffix.
    change (Str.chars ".mp3") with (Str.chars ".mp" ++ ["3"%char]) in Hsuffix.
    rewrite (assoc_L (++)) in Hsuffix.
    by apply suffix_snoc_inv_1 in Hsuffix.
Qed.

(** X14 at work: the second source of the sample tree. *)
Lemma target_next_to_source_witness :
  ∃ dst, Path.with_suffix Sample.b_m4a ".mp3" = Ok dst
    ∧ dst ≠ Sample.b_m4a
    ∧ Path.parent dst = ["data"; "train"].
Proof.
  destruct (target_next_to_source Sample.b_m4a) as (dst & ? & ? & Hparent & _);
    [by vm_compute|].
  exists dst. by rewrite Hparent.
Defined.

(** X15: two different sources have different targets, the bare name [.m4a]
    apart (its target, [.m4a.mp3], is also that of [.m4a.m4a]): no
    conversion writes where another one does. *)
Theorem targets_differ (p q : path) :
  Str.endswith (Path.name p) ".m4a" = true →
  Str.endswith (Path.name q) ".m4a" = true →
  Path.name p ≠ ".m4a" → Path.name q ≠ ".m4a" →
  p ≠ q →
  Path.with_suffix p ".mp3" ≠ Path.with_suffix q ".mp3".
Proof.
  intros [sp Hp]%endswith_iff [sq Hq]%endswith_iff Hpbare Hqbare Hpq.
  rewrite (with_suffix_m4a p sp Hp), (with_suffix_m4a q sq Hq).
  rewrite !decide_False by (by intros ->).
  intros [= Heq]. apply app_inj_tail in Heq as [Hdir Hname].
  apply append_inj_l in Hname as ->. apply Hpq.
  rewrite (name_last p), (name_last q);
    [|rewrite Hq; by destruct sq|rewrite Hp; by destruct sq].
  by rewrite Hdir, Hp, Hq.
Qed.

(** X15 at work: the two sources of the sample tree. *)
Lemma targets_differ_witness :
  Sample.a_m4a ≠ Sample.b_m4a
  ∧ Path.with_suffix Sample.a_m4a ".mp3" ≠ Path.with_suffix Sample.b_m4a ".mp3".
Proof.
  split; [discriminate|].
  apply (targets_differ Sample.a_m4a Sample.b_m4a);
    [by vm_compute|by vm_compute|discriminate|discriminate|discriminate].
Defined.

(** ** [extract_filename] *)

Lemma last_removelast {A} (l : list A) c :
  last l = Some c → l = removelast l ++ [c].
Proof.
  intros [l' ->]%last_Some. by rewrite List.removelast_last.
Qed.

Lemma match_group_inv rest g :
  match_group rest = Some g →
  mp3_name g = true ∧ (rest = g ∨ rest = g ++ ["010"%char]).
Proof.
  unfold match_group. destruct (mp3_name rest) eqn:Hrest.
  - intros [= <-]. auto.
  - destruct (bool_decide (last rest = Some "010"%char)) eqn:Hlast; [|done].
    apply bool_decide_eq_true in Hlast. simpl.
    destruct (mp3_name (removelast rest)) eqn:Hg; [|done].
    intros [= <-]. split; [done|]. right. by apply last_removelast.
Qed.

Lemma search_group_inv base g :
  search_group base = Some g →
  mp3_name g = true
  ∧ ∃ pre post, base = pre ++ "-"%char :: g ++ post
      ∧ (post = [] ∨ post = ["010"%char]).
Proof.
  induction base as [|a rest IH]; [done|]. simpl.
  assert (search_group rest = Some g →
          mp3_name g = true
          ∧ ∃ pre post, a :: rest = pre ++ "-"%char :: g ++ post
              ∧ (post = [] ∨ post = ["010"%char])) as Hlater.
  { intros (Hg & pre & post & -> & Hpost)%IH. split; [done|].
    by exists (a :: pre), post. }
  destruct (decide (a = "-"%char)) as [->|]; [|done].
  destruct (match_group rest) as [g'|] eqn:Hmatch; [|done].
  intros [= ->]. apply match_group_inv in Hmatch as [Hg [->| ->]].
  - split; [done|]. exists [], []. split; [by rewrite app_nil_r|by left].
  - split; [done|]. exists [], ["010"%char]. split; [done|by right].
Qed.

Lemma search_group_no_hyphen base :
  "-"%char ∉ base → search_group base = None.
Proof.
  induction base as [|a rest IH]; [done|]. intros Hnot. simpl.
  rewrite decide_False by (intros ->; apply Hnot; by left).
  apply IH. intros ?. apply Hnot. by right.
Qed.

Lemma search_group_first pre g :
  "-"%char ∉ pre → mp3_name g = true →
  search_group (pre ++ "-"%char :: g) = Some g.
Proof.
  intros Hpre Hg. induction pre as [|a pre IH]; simpl.
  - unfold match_group. by rewrite Hg.
  - rewrite decide_False by (intros ->; apply Hpre; by left).
    apply IH. intros ?. apply Hpre. by right.
Qed.

(** X16: what [extract_filename] returns is the name of the path, or a piece
    of that name: the piece follows a hyphen, runs to the end of the name
    or to the newline that ends it, and is one character or more followed
    by [.mp3] in any case.  A name without a hyphen is returned as it
    is. *)
Theorem extract_filename_keeps_a_piece (value : string) :
  let base := Path.name (Path.parse value) in
  (extract_filename value = base
   ∨ ∃ pre post,
       base = pre +:+ "-" +:+ extract_filename value +:+ post
       ∧ (post = "" ∨ post = String "010" "")
       ∧ mp3_name (Str.chars (extract_filename value)) = true)
  ∧ ("-"%char ∉ Str.chars base → extract_filename value = base).
Proof.
  cbv zeta. unfold extract_filename. split.
  - destruct (search_group _) as [g|] eqn:Hsearch; [right|by left].
    apply search_group_inv in Hsearch as (Hg & pre & post & Hbase & Hpost).
    exists (Str.of_chars pre), (Str.of_chars post).
    split; [|split].
    + apply chars_inj. rewrite Hbase, !chars_app, !chars_of_chars. done.
    + destruct Hpost as [-> | ->]; auto.
    + by rewrite chars_of_chars.
  - intros Hnot. by rewrite search_group_no_hyphen.
Qed.

Lemma split_chars_no_sep c cur l :
  c ∉ l → Str.split_chars c cur l = [Str.of_chars (reverse cur ++ l)].
Proof.
  revert cur. induction l as [|a l IH]; intros cur Hnot; simpl.
  - by rewrite app_nil_r.
  - rewrite decide_False by (intros ->; apply Hnot; by left).
    rewrite IH by (intros ?; apply Hnot; by right).
    by rewrite reverse_cons, <-(assoc_L (++)).
Qed.

Lemma split_chars_app c cur l1 l2 :
  Str.split_chars c cur (l1 ++ c :: l2)
  = Str.split_chars c cur l1 ++ Str.split_chars c [] l2.
Proof.
  revert cur. induction l1 as [|a l1 IH]; intros cur; simpl.
  - by rewrite decide_True.
  - destruct (decide (a = c)); [|apply IH]. by rewrite IH.
Qed.

(** The name of a path text that ends in a part [f]. *)
Lemma name_of_file dir f :
  dir = "" ∨ Str.endswith dir "/" = true →
  "/"%char ∉ Str.chars f → f ≠ "" → f ≠ "." →
  Path.name (Path.parse (dir +:+ f)) = f.
Proof.
  intros Hdir Hslash Hempty Hdot.
  assert (Path.is_anchor f = false) as Hanchor.
  { unfold Path.is_anchor. apply orb_false_iff.
    split; apply bool_decide_eq_false; intros ->; apply Hslash; by left. }
  assert (∃ parts, Str.split (dir +:+ f) "/" = parts ++ [f]) as [parts Hsplit].
  { unfold Str.split. rewrite chars_app. destruct Hdir as [->|Hdir].
    - exists []. simpl. rewrite split_chars_no_sep by done.
      change (reverse [] ++ Str.chars f) with (Str.chars f).
      by rewrite of_chars_chars.
    - apply endswith_iff in Hdir as [d ->]. rewrite chars_app.
      rewrite <-(assoc_L (++)). change (Str.chars "/" ++ Str.chars f)
        with ("/"%char :: Str.chars f).
      rewrite split_chars_app.
      rewrite (split_chars_no_sep _ [] (Str.chars f)) by done.
      change (reverse [] ++ Str.chars f) with (Str.chars f).
      eexists. by rewrite of_chars_chars. }
  unfold Path.parse. rewrite Hsplit, filter_app.
  rewrite (filter_cons_True _ f) by done.
  rewrite (assoc_L (++)). by apply name_snoc.
Qed.

Lemma mp3_name_no_slash g :
  mp3_name g = true → "/"%char ∉ g.
Proof.
  unfold mp3_name.
  intros [[_ Hext]%andb_true_iff Hstem%bool_decide_eq_true]%andb_true_iff.
  rewrite <-(take_drop (length g - 4) g). intros [?|Hin]%elem_of_app; [done|].
  destruct (drop (length g - 4) g) as [|a [|b [|c [|d [|]]]]]; try done.
  simpl in Hext. apply andb_true_iff in Hext as [Hext Hd].
  apply andb_true_iff in Hext as [Hext Hc].
  apply andb_true_iff in Hext as [Ha Hb].
  apply bool_decide_eq_true in Ha, Hd. apply orb_true_iff in Hb, Hc.
  destruct Hb as [Hb%bool_decide_eq_true|Hb%bool_decide_eq_true],
    Hc as [Hc%bool_decide_eq_true|Hc%bool_decide_eq_true]; subst;
    repeat (apply elem_of_cons in Hin as [Hin|Hin]; [done|]);
    by apply elem_of_nil in Hin.
Qed.

(** X17: a local name is recovered from its hashed form: for a prefix without
    a hyphen or a slash and a name that is one character or more followed
    by [.mp3] in any case, [extract_filename] of prefix, hyphen and name,
    alone or behind a directory, is the name, hyphens in it included. *)
Theorem hashed_name_is_recovered (dir prefix name : string) :
  dir = "" ∨ Str.endswith dir "/" = true →
  "-"%char ∉ Str.chars prefix → "/"%char ∉ Str.chars prefix →
  mp3_name (Str.chars name) = true →
  extract_filename (dir +:+ prefix +:+ "-" +:+ name) = name.
Proof.
  intros Hdir Hhyphen Hslash Hname. unfold extract_filename.
  rewrite name_of_file; [|done| | |].
  - rewrite !chars_app. change (Str.chars "-" ++ Str.chars name)
      with ("-"%char :: Str.chars name).
    rewrite search_group_first by done. apply of_chars_chars.
  - rewrite !chars_app.
    intros [Hin|[Hin|Hin]%elem_of_app]%elem_of_app; [done| |].
    + change (Str.chars "-") with ["-"%char] in Hin.
      by apply list_elem_of_singleton in Hin.
    + by eapply mp3_name_no_slash.
  - intros H%(f_equal Str.chars). rewrite !chars_app in H.
    by destruct (Str.chars prefix).
  - intros H%(f_equal Str.chars). rewrite !chars_app in H.
    destruct (Str.chars prefix) as [|a [|]];
      [|by destruct (Str.chars name)|done].
    by vm_compute in H.
Qed.

(** X17 at work: a hashed upload path with a hyphen in the local name. *)
Lemma hashed_name_is_recovered_witness :
  extract_filename "/data/upload/1/ab12cd-my-dog.MP3" = "my-dog.MP3".
Proof.
  apply (hashed_name_is_recovered "/data/upload/1/" "ab12cd" "my-dog.MP3").
  - right. by vm_compute.
  - apply (bool_decide_unpack _). by vm_compute.
  - apply (bool_decide_unpack _). by vm_compute.
  - by vm_compute.
Defined.
